(** * Disposition checker and limit-up fetcher: a shallow embedding

    This development embeds the two Python modules of the repository,
    [disposition_checker.py] and [limit_up_tw.py], and states their
    specification against the embedded code.

    - Python [int]s are [Z]; Python [float]s are IEEE 754 binary64 values,
      that is Rocq's primitive [float].
    - Python exceptions are values of [exn]; a computation that may raise
      has type [result A].
    - A row of the CSV file, built by [parse_row], is a dict with eleven
      fixed keys whose values are all floats (but for the date): it is the
      record [row]. The five keys that [compute_metrics] adds with
      [row.update] are the optional field [derived].
    - [compute_metrics] enriches the dicts of its argument in place: it is
      a function from the list of rows before the call to the outcome of
      the call and the list of rows after it. The rows of a list are
      distinct dicts, as the list comprehension of [main] builds them.
    - The network, the clock and [json.loads] are parameters of
      [fetch_limit_up]. *)

From Stdlib Require Import Floats ZArith Lia Ascii.
From stdpp Require Import list list_numbers sorting strings.

Open Scope Z_scope.

(** ** Python primitives *)

Module Py.

(** A Python [str]: a sequence of Unicode code points. *)
Definition str : Type := list N.

(** The [str] of an ASCII literal of the source. *)
Fixpoint lit (s : string) : str :=
  match s with
  | EmptyString => []
  | String c s' => N_of_ascii c :: lit s'
  end.

(** The value [json.loads] builds. A JSON object becomes a dict: it is
    the list of its items in insertion order, with distinct keys. *)
#[warnings="-register-all"]
Inductive json : Type :=
  | JNull
  | JBool (b : bool)
  | JInt (z : Z)
  | JFloat (f : float)
  | JStr (s : str)
  | JArr (items : list json)
  | JObj (items : list (str * json)).

(** What an f-string of the source interpolates into the message of a
    [RuntimeError]: the caught [URLError] (by its reason) or the value
    of [data.get('stat')], where [None] stands for Python's [None]. *)
Inductive interpolated : Type :=
  | OfURLError (reason : str)
  | OfValue (v : option json).

(** The exceptions the two modules can raise. [RuntimeError] carries the
    two parts of its message: the text of the f-string and the value
    interpolated after it. *)
Inductive exn : Type :=
  | IndexError
  | KeyError (key : string)
  | TypeError
  | AttributeError
  | ZeroDivisionError
  | UnicodeDecodeError
  | ConnectionResetError
  | JSONDecodeError
  | RuntimeError (text : string) (value : interpolated).

Inductive result (A : Type) : Type :=
  | Ok (a : A)
  | Raise (e : exn).
Arguments Ok {A} a.
Arguments Raise {A} e.

#[global] Instance result_ret : MRet result := λ A a, Ok a.
#[global] Instance result_bind : MBind result := λ A B f m,
  match m with
  | Ok a => f a
  | Raise e => Raise e
  end.

(** [l[i]] for a Python int [i]: a negative index counts from the end, an
    index out of range raises [IndexError]. *)
Definition getitem {A} (l : list A) (i : Z) : result A :=
  let len := Z.of_nat (length l) in
  let j := if i <? 0 then len + i else i in
  if (0 <=? j) && (j <? len)
  then match l !! Z.to_nat j with
       | Some a => Ok a
       | None => Raise IndexError
       end
  else Raise IndexError.

(** A slice bound is clamped into [0, len]; a negative one counts from
    the end first. *)
Definition slice_bound (len k : Z) : Z :=
  if k <? 0 then Z.max 0 (len + k) else Z.min len k.

(** [l[start:stop]]: never raises. *)
Definition slice {A} (l : list A) (start stop : Z) : list A :=
  let len := Z.of_nat (length l) in
  let a := slice_bound len start in
  let b := slice_bound len stop in
  take (Z.to_nat (b - a)) (drop (Z.to_nat a) l).

(** [sum(l)] over booleans: [True] counts 1 and [False] 0. *)
Fixpoint builtin_sum (l : list bool) : Z :=
  match l with
  | [] => 0
  | b :: l' => Z.b2z b + builtin_sum l'
  end.

(** [for x in xs: s = body(x, s)], stopped by the first exception. *)
Fixpoint for_in {X S} (xs : list X) (body : X → S → result S) (s : S)
  : result S :=
  match xs with
  | [] => Ok s
  | x :: xs' => s' ← body x s; for_in xs' body s'
  end.

(** [range(n)] *)
Definition range (n : Z) : list Z := seqZ 0 n.

(** *** Numbers

    The float of an int, rounded to nearest even; exact for the small
    literals of the source (0, 4, 5, 6, 9, 10, 100, 3000). *)
Definition of_int (z : Z) : float :=
  SF2Prim (binary_normalize prec emax z 0 false).

(** [x / y] on floats raises [ZeroDivisionError] when [y == 0.0], which
    holds of both zeros and of no NaN. *)
Definition truediv (x y : float) : result float :=
  if PrimFloat.eqb y 0%float then Raise ZeroDivisionError
  else Ok (PrimFloat.div x y).

(** A number held by a variable of the program: an [int] or a [float]. *)
Inductive num : Type :=
  | Int (z : Z)
  | Float (f : float).

(** [a - b]: exact on two ints, the float difference otherwise. *)
Definition num_sub (a b : num) : num :=
  match a, b with
  | Int x, Int y => Int (x - y)
  | Int x, Float y => Float (PrimFloat.sub (of_int x) y)
  | Float x, Int y => Float (PrimFloat.sub x (of_int y))
  | Float x, Float y => Float (PrimFloat.sub x y)
  end.

(** [a < b]; between a float and one of the literals of the source the
    comparison by value is the comparison of floats. *)
Definition num_ltb (a b : num) : bool :=
  match a, b with
  | Int x, Int y => x <? y
  | Int x, Float y => PrimFloat.ltb (of_int x) y
  | Float x, Int y => PrimFloat.ltb x (of_int y)
  | Float x, Float y => PrimFloat.ltb x y
  end.

Definition num_leb (a b : num) : bool :=
  match a, b with
  | Int x, Int y => x <=? y
  | Int x, Float y => PrimFloat.leb (of_int x) y
  | Float x, Int y => PrimFloat.leb x (of_int y)
  | Float x, Float y => PrimFloat.leb x y
  end.

(** [a > b] and [a >= b] *)
Definition gt (a b : num) : bool := num_ltb b a.
Definition ge (a b : num) : bool := num_leb b a.

End Py.

Import Py.

(** ** [disposition_checker.py] *)

Module DispositionChecker.

(** *** Rows

    The dict [parse_row] returns: a [datetime] (here an integer that
    grows with it) and ten floats. [derived] holds the five entries
    that [compute_metrics] adds; it is [None] on a row that has none of
    them. *)
Record metrics : Type := Metrics {
  amplitude : num;
  amplitude_diff : num;
  price_change : num;
  price_diff : num;
  turnover : num
}.

Record row : Type := Row {
  date : Z;
  open : float;
  high : float;
  low : float;
  close : float;
  volume : float;
  idx_open : float;
  idx_high : float;
  idx_low : float;
  idx_close : float;
  outstanding : float;
  derived : option metrics
}.

(** [row.update({...})] with the five derived entries: every other key
    keeps its value. *)
Definition update (r : row) (m : metrics) : row :=
  Row (date r) (open r) (high r) (low r) (close r) (volume r)
      (idx_open r) (idx_high r) (idx_low r) (idx_close r) (outstanding r)
      (Some m).

(** *** [compute_metrics] *)

(** The variables one iteration of the loop assigns. *)
Record locals : Type := Locals {
  l_amplitude : num;
  l_idx_amplitude : num;
  l_amplitude_diff : num;
  l_price_change : num;
  l_idx_price_change : num;
  l_price_diff : num;
  l_turnover : num
}.

(** [(a - b) / c * 100] *)
Definition percent (a b c : float) : result num :=
  q ← truediv (PrimFloat.sub a b) c;
  Ok (Float (PrimFloat.mul q (of_int 100))).

(** The two branches of [if prev_close is None]. In the second one
    [prev_idx_close] is used as a number; it is [None] only together
    with [prev_close]. *)
Definition price_changes (prev_close prev_idx_close : option float) (r : row)
  : result (num * num) :=
  match prev_close with
  | None => Ok (Int 0, Int 0)
  | Some pc =>
      price_change ← percent (close r) pc pc;
      match prev_idx_close with
      | None => Raise TypeError
      | Some pic =>
          idx_price_change ← percent (idx_close r) pic pic;
          Ok (price_change, idx_price_change)
      end
  end.

(** The body of the loop up to [row.update], in the order of the
    statements. *)
Definition row_locals (prev_close prev_idx_close : option float) (r : row)
  : result locals :=
  amplitude ← percent (high r) (low r) (low r);
  idx_amplitude ← percent (idx_high r) (idx_low r) (idx_low r);
  let amplitude_diff := num_sub amplitude idx_amplitude in
  changes ← price_changes prev_close prev_idx_close r;
  let price_diff := num_sub changes.1 changes.2 in
  q ← truediv (volume r) (outstanding r);
  let turnover := Float (PrimFloat.mul q (of_int 100)) in
  Ok (Locals amplitude idx_amplitude amplitude_diff
             changes.1 changes.2 price_diff turnover).

(** The dict passed to [row.update]. *)
Definition stored (v : locals) : metrics :=
  Metrics (l_amplitude v) (l_amplitude_diff v) (l_price_change v)
          (l_price_diff v) (l_turnover v).

(** The loop of [compute_metrics] from some row on. The rows are
    distinct dicts, updated in place: the second component is the list
    of rows as the call leaves it, also when it raises. *)
Fixpoint compute_metrics_from (prev_close prev_idx_close : option float)
    (rows : list row) : result () * list row :=
  match rows with
  | [] => (Ok (), [])
  | r :: rest =>
      match row_locals prev_close prev_idx_close r with
      | Raise e => (Raise e, r :: rest)
      | Ok v =>
          let r' := update r (stored v) in
          let after := compute_metrics_from (Some (close r'))
                         (Some (idx_close r')) rest in
          (after.1, r' :: after.2)
      end
  end.

(** [compute_metrics(rows)]: returns [None], or raises. *)
Definition compute_metrics (rows : list row) : result () * list row :=
  compute_metrics_from None None rows.

(** *** [flag_unusual] *)

(** The body of the loop for one row. [row['amplitude']] is the first
    key read: a row without the derived entries raises [KeyError]. *)
Definition flagged (r : row) : result bool :=
  match derived r with
  | None => Raise (KeyError "amplitude")
  | Some m =>
      let cond1 := gt (amplitude m) (Int 9) && gt (amplitude_diff m) (Int 5)
                   && ge (Float (volume r)) (Int 3000) in
      let cond2 := gt (price_change m) (Int 6) && gt (price_diff m) (Int 4)
                   && ge (Float (volume r)) (Int 3000) in
      let cond3 := gt (turnover m) (Int 10)
                   && ge (Float (volume r)) (Int 3000) in
      Ok (cond1 || cond2 || cond3)
  end.

Definition flag_unusual (rows : list row) : result (list bool) :=
  for_in rows (λ r flags, f ← flagged r; Ok (flags ++ [f])) [].

(** *** [check_disposition] *)

(** [i >= 2 and flags[i] and flags[i-1] and flags[i-2]], with the short
    circuit of [and]. *)
Definition consecutive3 (flags : list bool) (i : Z) : result bool :=
  if 2 <=? i then
    f0 ← getitem flags i;
    if f0 : bool then
      f1 ← getitem flags (i - 1);
      if f1 : bool then getitem flags (i - 2) else Ok false
    else Ok false
  else Ok false.

(** The body of the loop, for one [i]; [disposition_days] is the list
    built so far. Every [continue] ends the iteration. *)
Definition check_day {D} (dates : list D) (flags : list bool) (i : Z)
    (disposition_days : list D) : result (list D) :=
  a ← consecutive3 flags i;
  if a : bool then
    d ← getitem dates i; Ok (disposition_days ++ [d])
  else
    let start10 := Z.max 0 (i - 9) in
    let last10 := builtin_sum (slice flags start10 (i + 1)) in
    if 6 <=? last10 then
      d ← getitem dates i; Ok (disposition_days ++ [d])
    else
      let start30 := Z.max 0 (i - 29) in
      let last30 := builtin_sum (slice flags start30 (i + 1)) in
      if 12 <=? last30 then
        d ← getitem dates i; Ok (disposition_days ++ [d])
      else Ok disposition_days.

Definition check_disposition {D} (dates : list D) (flags : list bool)
  : result (list D) :=
  let n := Z.of_nat (length dates) in
  for_in (range n) (check_day dates flags) [].

(** *** [main]

    [rows.sort(key=lambda r: r['date'])]: the stable sort by date, an
    insertion sort here. A row goes before the first row that is not
    earlier than it, so that rows of one date keep their order. *)
Fixpoint insert_row (r : row) (sorted : list row) : list row :=
  match sorted with
  | [] => [r]
  | x :: rest =>
      if date r <=? date x then r :: x :: rest else x :: insert_row r rest
  end.

Definition sort_rows (rows : list row) : list row := foldr insert_row [] rows.

(** [main] from the parsed rows on: the sort, the three stages, and the
    dates of the lines it prints, one line a date, in order. *)
Definition main (rows : list row) : result (list Z) :=
  let rows := sort_rows rows in
  let run := compute_metrics rows in
  _ ← run.1;
  let rows := run.2 in
  flags ← flag_unusual rows;
  let dates := date <$> rows in
  check_disposition dates flags.

End DispositionChecker.

Import DispositionChecker.

(** ** [limit_up_tw.py] *)

Module LimitUpTw.

(** What [urlopen(url)], [resp.read()] and [.decode("utf-8")] come to:
    the decoded text, a [URLError] (the class the [except] clause
    names, with its subclasses), or an exception of another class,
    which the [try] statement lets through. *)
Inductive response : Type :=
  | Body (content : str)
  | URLError (reason : str)
  | Failed (e : exn).

(** One entry of the returned list:
    [{"stock_no": row[0], "stock_name": row[1]}]. *)
Record stock : Type := Stock {
  stock_no : json;
  stock_name : json
}.

(** [d.get(key)] on a dict. *)
Fixpoint dict_get (items : list (str * json)) (key : str) : option json :=
  match items with
  | [] => None
  | (k, v) :: items' => if decide (k = key) then Some v else dict_get items' key
  end.

(** [data.get(key)]: only a dict has the method. *)
Definition get (data : json) (key : str) : result (option json) :=
  match data with
  | JObj items => Ok (dict_get items key)
  | _ => Raise AttributeError
  end.

(** [v != s] for a [str] literal [s]: false on that very string only. *)
Definition differs (v : option json) (s : str) : bool :=
  match v with
  | Some (JStr t) => negb (bool_decide (t = s))
  | _ => true
  end.

(** The items [for row in v] goes through: those of a list, the
    characters of a string, the keys of a dict. *)
Definition iter (v : json) : result (list json) :=
  match v with
  | JArr items => Ok items
  | JStr s => Ok ((λ c, JStr [c]) <$> s)
  | JObj items => Ok ((λ kv, JStr kv.1) <$> items)
  | _ => Raise TypeError
  end.

(** [len(v)] *)
Definition len (v : json) : result Z :=
  match v with
  | JArr items => Ok (Z.of_nat (length items))
  | JStr s => Ok (Z.of_nat (length s))
  | JObj items => Ok (Z.of_nat (length items))
  | _ => Raise TypeError
  end.

(** [v[0]] and [v[1]], taken after [len(v) >= 2]; the keys of a dict
    made by [json.loads] are strings, none is the int. *)
Definition item (v : json) (i : Z) (repr : string) : result json :=
  match v with
  | JArr items => getitem items i
  | JStr s => c ← getitem s i; Ok (JStr [c])
  | JObj _ => Raise (KeyError repr)
  | _ => Raise TypeError
  end.

Section world.

(** [datetime.date.today().strftime("%Y%m%d")] *)
Variable today : str.
(** The request of a url, see [response]. *)
Variable urlopen : str → response.
(** [json.loads] *)
Variable json_loads : str → result json.

Definition url (date : str) : str :=
  lit "https://www.twse.com.tw/exchangeReport/TWT43U?response=json&date="
  ++ date.

(** The [try] statement. *)
Definition fetch (date : str) : result str :=
  match urlopen (url date) with
  | Body content => Ok content
  | URLError e => Raise (RuntimeError "Failed to fetch data: " (OfURLError e))
  | Failed e => Raise e
  end.

(** The body of the last loop. *)
Definition collect (row : json) (result : list stock)
  : Py.result (list stock) :=
  n ← len row;
  if 2 <=? n then
    no ← item row 0 "0";
    name ← item row 1 "1";
    Ok (result ++ [Stock no name])
  else Ok result.

Definition fetch_limit_up (date : option str) : result (list stock) :=
  let date := default today date in
  content ← fetch date;
  data ← json_loads content;
  stat ← get data (lit "stat");
  if differs stat (lit "OK") then
    stat' ← get data (lit "stat");
    Raise (RuntimeError "API error: " (OfValue stat'))
  else
    rows ← get data (lit "data");
    rows ← iter (default (JArr []) rows);
    for_in rows collect [].

End world.

End LimitUpTw.

(** ** The rules of the disposition, as the specification words them

    Indices are natural numbers. The window of Rule B at day [i] is
    made of the indices [max(0, i-9), ..., i], both ends included. *)

Module Rules.

(** [max(0, i - back)] *)
Definition window_start (i back : nat) : nat :=
  Z.to_nat (Z.max 0 (Z.of_nat i - Z.of_nat back)).

(** The number of [true] flags at the indices [lo, ..., hi]. *)
Definition window_count (flags : list bool) (lo hi : nat) : nat :=
  length (filter (λ j, flags !! j = Some true) (seq lo (S hi - lo))).

Definition rule_A (flags : list bool) (i : nat) : Prop :=
  (2 ≤ i)%nat ∧ flags !! i = Some true ∧ flags !! (i - 1)%nat = Some true
  ∧ flags !! (i - 2)%nat = Some true.

Definition rule_B (flags : list bool) (i : nat) : Prop :=
  (6 ≤ window_count flags (window_start i 9) i)%nat.

Definition rule_C (flags : list bool) (i : nat) : Prop :=
  (12 ≤ window_count flags (window_start i 29) i)%nat.

Definition triggers (flags : list bool) (i : nat) : Prop :=
  rule_A flags i ∨ rule_B flags i ∨ rule_C flags i.

#[global] Instance triggers_dec flags i : Decision (triggers flags i).
Proof. unfold triggers, rule_A, rule_B, rule_C. apply _. Defined.

(** The dates at the indices that trigger, in the order of the indices. *)
Definition trigger_dates {D} (dates : list D) (flags : list bool) : list D :=
  (filter (λ p, triggers flags p.1) (zip (seq 0 (length dates)) dates)).*2.

(** The condition of the anomaly flagger on the metrics of one day. *)
Definition unusual (m : metrics) (volume : float) : Prop :=
  (gt (amplitude m) (Int 9) ∧ gt (amplitude_diff m) (Int 5)
   ∧ ge (Float volume) (Int 3000))
  ∨ (gt (price_change m) (Int 6) ∧ gt (price_diff m) (Int 4)
     ∧ ge (Float volume) (Int 3000))
  ∨ (gt (turnover m) (Int 10) ∧ ge (Float volume) (Int 3000)).

#[global] Instance unusual_dec m volume : Decision (unusual m volume).
Proof. unfold unusual. apply _. Defined.

(** [x == 0] on floats. *)
Definition is_zero (x : float) : Prop := PrimFloat.eqb x 0%float = true.

(** A divisor of the metrics of record [i] is zero: its [low],
    [idx_low] or [outstanding], or the [close] or [idx_close] of the
    record before it. *)
Definition zero_divisor (rows : list row) (i : nat) : Prop :=
  ∃ r, rows !! i = Some r
    ∧ (is_zero (low r) ∨ is_zero (idx_low r) ∨ is_zero (outstanding r)
       ∨ ∃ j p, i = S j ∧ rows !! j = Some p
           ∧ (is_zero (close p) ∨ is_zero (idx_close p))).

(** A divisor of the metrics of [r] is zero, [prev] being the record
    before it in the loop, if any. *)
Definition zero_divisor_after (prev : option row) (r : row) : Prop :=
  is_zero (low r) ∨ is_zero (idx_low r) ∨ is_zero (outstanding r)
  ∨ ∃ p, prev = Some p ∧ (is_zero (close p) ∨ is_zero (idx_close p)).

(** The record before record [i], in the loop that starts after [prev]. *)
Definition before (prev : option row) (rows : list row) (i : nat)
  : option row :=
  match i with
  | O => prev
  | S j => rows !! j
  end.

(** The first record has no zero divisor (it has no record before). *)
Definition first_row_divides (r : row) : bool :=
  negb (PrimFloat.eqb (low r) 0%float)
  && negb (PrimFloat.eqb (idx_low r) 0%float)
  && negb (PrimFloat.eqb (outstanding r) 0%float).

(** Two records with the same eleven raw entries. *)
Definition same_raw (r r' : row) : Prop :=
  date r' = date r ∧ open r' = open r ∧ high r' = high r ∧ low r' = low r
  ∧ close r' = close r ∧ volume r' = volume r ∧ idx_open r' = idx_open r
  ∧ idx_high r' = idx_high r ∧ idx_low r' = idx_low r
  ∧ idx_close r' = idx_close r ∧ outstanding r' = outstanding r.

(** The flags of the two scenarios of the specification. *)
Definition flags_three_then_none : list bool :=
  [true; true; true; false; false; false; false; false; false; false].

Definition flags_alternating : list bool :=
  [true; false; true; false; true; false; true; false; true; false; true].

(** Sample records: an ordinary day, a day with a negative low, and
    a day without outstanding shares. *)
Definition ordinary_row : row :=
  Row 20240102 100 100 90 100 5000 100 100 99 100 1000 None.

Definition negative_low_row : row :=
  Row 20240103 100 100 (-1) 106 5000 100 100 99 100 1000 None.

Definition no_shares_row : row :=
  Row 20240104 100 100 90 100 5000 100 100 99 100 0 None.

(** The five entries of a record in closed form, [prev] being the
    record before it in the list, if any. *)
Definition metrics_of (prev : option row) (r : row) : metrics :=
  let hundred := of_int 100 in
  let amp := ((high r - low r) / low r * hundred)%float in
  let idx_amp := ((idx_high r - idx_low r) / idx_low r * hundred)%float in
  let changes :=
    match prev with
    | None => (Int 0, Int 0)
    | Some p =>
        (Float ((close r - close p) / close p * hundred)%float,
         Float ((idx_close r - idx_close p) / idx_close p * hundred)%float)
    end in
  Metrics (Float amp) (Float (amp - idx_amp)%float) changes.1
          (num_sub changes.1 changes.2)
          (Float (volume r / outstanding r * hundred)%float).

(** Every record with its entries, each from the record before it. *)
Fixpoint enriched (prev : option row) (rows : list row) : list row :=
  match rows with
  | [] => []
  | r :: rest => update r (metrics_of prev r) :: enriched (Some r) rest
  end.

(** Flags that hold wherever other flags hold. *)
Definition flags_le (flags flags' : list bool) : Prop :=
  Forall2 (λ b b' : bool, b → b') flags flags'.

(** The entry of the result for one row of the payload, when the row
    is a list: none for a list of fewer than two items. *)
Definition stock_of (row : json) : option LimitUpTw.stock :=
  match row with
  | JArr (no :: name :: _) => Some (LimitUpTw.Stock no name)
  | _ => None
  end.

Definition is_list (v : json) : Prop :=
  match v with
  | JArr _ => True
  | _ => False
  end.

(** A row not later than another. *)
Definition by_date (r r' : row) : Prop := date r ≤ date r'.

(** No entry of the record that is ever a divisor is zero. *)
Definition divisors_nonzero (r : row) : Prop :=
  ¬ is_zero (low r) ∧ ¬ is_zero (idx_low r) ∧ ¬ is_zero (outstanding r)
  ∧ ¬ is_zero (close r) ∧ ¬ is_zero (idx_close r).

End Rules.

Import Rules.

(** ** Python primitives: lemmas *)

Section py_lemmas.
Context {A : Type}.
Implicit Types l : list A.

Lemma getitem_lookup l (n : nat) a :
  l !! n = Some a → getitem l (Z.of_nat n) = Ok a.
Proof.
  intros Hn. pose proof (lookup_lt_Some _ _ _ Hn) as Hlt.
  unfold getitem.
  destruct (Z.ltb_spec (Z.of_nat n) 0) as [?|_]; [lia|].
  destruct (Z.leb_spec 0 (Z.of_nat n)) as [_|?]; [|lia].
  destruct (Z.ltb_spec (Z.of_nat n) (Z.of_nat (length l))) as [_|?]; [|lia].
  simpl. by rewrite Nat2Z.id, Hn.
Qed.

Lemma getitem_out_of_range l (n : nat) :
  (length l ≤ n)%nat → getitem l (Z.of_nat n) = Raise IndexError.
Proof.
  intros Hn. unfold getitem.
  destruct (Z.ltb_spec (Z.of_nat n) 0) as [?|_]; [lia|].
  destruct (Z.ltb_spec (Z.of_nat n) (Z.of_nat (length l))) as [?|_]; [lia|].
  by rewrite andb_false_r.
Qed.

(** A slice with bounds inside the list is a [take] of a [drop]. *)
Lemma slice_take_drop l (a b : nat) :
  (a ≤ b ≤ length l)%nat →
  slice l (Z.of_nat a) (Z.of_nat b) = take (b - a) (drop a l).
Proof.
  intros [Hab Hb]. unfold slice, slice_bound.
  destruct (Z.ltb_spec (Z.of_nat a) 0) as [?|_]; [lia|].
  destruct (Z.ltb_spec (Z.of_nat b) 0) as [?|_]; [lia|].
  rewrite !Z.min_r by lia. f_equal; [lia|]. f_equal. lia.
Qed.

End py_lemmas.

(** [sum] of a window of flags counts the indices that hold [true]. *)
Lemma builtin_sum_take_drop (flags : list bool) (lo m : nat) :
  builtin_sum (take m (drop lo flags))
  = Z.of_nat (length (filter (λ j, flags !! j = Some true) (seq lo m))).
Proof.
  revert lo. induction m as [|m IH]; intros lo; [done|].
  destruct (flags !! lo) as [b|] eqn:Hlo.
  - rewrite (drop_S _ _ _ Hlo). cbn [take builtin_sum seq].
    rewrite IH, filter_cons. destruct b; case_decide; simplify_eq/=; lia.
  - apply lookup_ge_None in Hlo. cbn [seq]. rewrite filter_cons.
    case_decide as Hc; [apply lookup_lt_Some in Hc; lia|].
    rewrite <- IH, !drop_ge by lia. by destruct m.
Qed.

(** ** [check_disposition] against the rules *)

Section check_disposition_rules.
Context {D : Type}.
Implicit Types (dates : list D) (flags : list bool) (i : nat).

(** The sum of the slice the code takes is the count of the window. *)
Lemma window_sum flags i (back : nat) :
  (i < length flags)%nat →
  builtin_sum (slice flags (Z.max 0 (Z.of_nat i - Z.of_nat back))
                 (Z.of_nat i + 1))
  = Z.of_nat (window_count flags (window_start i back) i).
Proof.
  intros Hi. unfold window_count, window_start.
  set (lo := Z.to_nat (Z.max 0 (Z.of_nat i - Z.of_nat back))).
  replace (Z.max 0 (Z.of_nat i - Z.of_nat back)) with (Z.of_nat lo) by lia.
  replace (Z.of_nat i + 1) with (Z.of_nat (S i)) by lia.
  rewrite slice_take_drop by lia. apply builtin_sum_take_drop.
Qed.

Lemma consecutive3_rule_A flags i :
  (i < length flags)%nat →
  consecutive3 flags (Z.of_nat i) = Ok (bool_decide (rule_A flags i)).
Proof.
  intros Hi. unfold consecutive3, rule_A.
  destruct (Z.leb_spec 2 (Z.of_nat i)) as [H2|H2].
  - destruct (lookup_lt_is_Some_2 flags i) as [f0 H0]; [lia|].
    destruct (lookup_lt_is_Some_2 flags (i - 1)) as [f1 H1]; [lia|].
    destruct (lookup_lt_is_Some_2 flags (i - 2)) as [f2 Hf2]; [lia|].
    replace (Z.of_nat i - 1) with (Z.of_nat (i - 1)) by lia.
    replace (Z.of_nat i - 2) with (Z.of_nat (i - 2)) by lia.
    rewrite (getitem_lookup _ _ _ H0). cbn.
    destruct f0;
      [|f_equal; symmetry; apply bool_decide_eq_false; intros (_&?&_); congruence].
    rewrite (getitem_lookup _ _ _ H1). cbn.
    destruct f1;
      [|f_equal; symmetry; apply bool_decide_eq_false; intros (_&_&?&_); congruence].
    rewrite (getitem_lookup _ _ _ Hf2).
    destruct f2; f_equal; symmetry;
      [apply bool_decide_eq_true; split_and!; [lia|done..]
      |apply bool_decide_eq_false; intros (_&_&_&?); congruence].
  - f_equal. symmetry. apply bool_decide_eq_false. intros [? _]. lia.
Qed.

(** One iteration appends the date of the day exactly when a rule
    holds of the day. *)
Lemma check_day_triggers dates flags i d acc :
  (i < length flags)%nat → dates !! i = Some d →
  check_day dates flags (Z.of_nat i) acc
  = Ok (acc ++ if decide (triggers flags i) then [d] else []).
Proof.
  intros Hi Hd. unfold check_day, triggers.
  rewrite consecutive3_rule_A by done. cbn.
  pose proof (window_sum flags i 9 Hi) as H10.
  pose proof (window_sum flags i 29 Hi) as H30.
  change (Z.of_nat 9) with 9 in H10. change (Z.of_nat 29) with 29 in H30.
  rewrite H10, H30.
  rewrite (getitem_lookup _ _ _ Hd). cbn.
  case_bool_decide as HA.
  { rewrite decide_True by tauto. done. }
  unfold rule_B, rule_C.
  destruct (Z.leb_spec 6 (Z.of_nat (window_count flags (window_start i 9) i)))
    as [HB|HB].
  { rewrite decide_True; [done|]. right; left. lia. }
  destruct (Z.leb_spec 12 (Z.of_nat (window_count flags (window_start i 29) i)))
    as [HC|HC].
  { rewrite decide_True; [done|]. right; right. lia. }
  rewrite decide_False; [by rewrite app_nil_r|].
  intros [?|[?|?]]; [done|lia..].
Qed.

(** The loop from day [length pre] on. *)
Lemma check_disposition_from dates flags pre suf acc :
  dates = pre ++ suf → (length dates ≤ length flags)%nat →
  for_in (seqZ (Z.of_nat (length pre)) (Z.of_nat (length suf)))
    (check_day dates flags) acc
  = Ok (acc ++ (filter (λ p, triggers flags p.1)
                  (zip (seq (length pre) (length suf)) suf)).*2).
Proof.
  intros -> Hlen. revert pre acc Hlen.
  induction suf as [|d suf IH]; intros pre acc Hlen.
  { cbn [length]. rewrite seqZ_nil by done. cbn. by rewrite app_nil_r. }
  rewrite seqZ_cons by (cbn; lia).
  cbn [for_in length seq zip zip_with].
  pose proof Hlen as Hlen'. rewrite length_app in Hlen'. cbn in Hlen'.
  rewrite (check_day_triggers _ _ _ d).
  - cbn.
    specialize (IH (pre ++ [d])
      (acc ++ if decide (triggers flags (length pre)) then [d] else [])).
    assert (Hl : length (pre ++ [d]) = S (length pre))
      by (rewrite length_app; cbn; lia).
    rewrite <- (assoc_L (++)), !Hl in IH. cbn [app] in IH.
    replace (Z.succ (Z.of_nat (length pre))) with (Z.of_nat (S (length pre)))
      by lia.
    replace (Z.pred (Z.of_nat (S (length suf)))) with (Z.of_nat (length suf))
      by lia.
    rewrite IH by done.
    case_decide; cbn; by rewrite <- (assoc_L (++)).
  - lia.
  - by rewrite lookup_app_r, Nat.sub_diag.
Qed.

Lemma check_disposition_trigger_dates dates flags :
  (length dates ≤ length flags)%nat →
  check_disposition dates flags = Ok (trigger_dates dates flags).
Proof.
  intros Hlen. unfold check_disposition, range, trigger_dates.
  by apply (check_disposition_from dates flags [] dates []).
Qed.

End check_disposition_rules.

(** *** The output as a part of the dates *)

Section trigger_dates.
Context {D : Type}.
Implicit Types (dates : list D) (flags : list bool).

Lemma elem_of_zip_seq dates (i : nat) d :
  (i, d) ∈ zip (seq 0 (length dates)) dates ↔ dates !! i = Some d.
Proof.
  rewrite list_elem_of_lookup. split.
  - intros [j Hj]. apply lookup_zip_with_Some in Hj as (x & y & Heq & Hx & Hy).
    apply lookup_seq in Hx as [-> _]. by simplify_eq/=.
  - intros Hd. exists i. apply lookup_zip_with_Some. exists i, d.
    split_and!; [done| |done].
    apply lookup_seq. split; [done|]. by eapply lookup_lt_Some.
Qed.

Lemma elem_of_trigger_dates dates flags d :
  d ∈ trigger_dates dates flags
  ↔ ∃ i : nat, dates !! i = Some d ∧ triggers flags i.
Proof.
  unfold trigger_dates. rewrite list_elem_of_fmap. split.
  - intros [[i d'] [-> Hin]]. apply list_elem_of_filter in Hin as [Ht Hin].
    exists i. by rewrite <- elem_of_zip_seq.
  - intros (i & Hd & Ht). exists (i, d). split; [done|].
    apply list_elem_of_filter. by rewrite elem_of_zip_seq.
Qed.

Lemma trigger_dates_sublist dates flags :
  trigger_dates dates flags `sublist_of` dates.
Proof.
  unfold trigger_dates.
  etrans; [apply fmap_sublist, (sublist_filter _)|].
  by rewrite snd_zip by (by rewrite length_seq).
Qed.

End trigger_dates.

Lemma StronglySorted_sublist {A} (R : relation A) (l k : list A) :
  l `sublist_of` k → StronglySorted R k → StronglySorted R l.
Proof.
  induction 1 as [|x l k Hsub IH|x l k Hsub IH]; intros Hk; [done|..].
  - apply StronglySorted_inv in Hk as [Hk Hall]. constructor; [by apply IH|].
    eapply Forall_forall. intros y Hy.
    eapply (proj1 (Forall_forall _ _) Hall), (sublist_subseteq _ _ Hsub), Hy.
  - apply StronglySorted_inv in Hk as [Hk _]. by apply IH.
Qed.

Lemma StronglySorted_lt_NoDup (l : list Z) : StronglySorted Z.lt l → NoDup l.
Proof.
  induction 1 as [|x l _ IH Hall]; constructor; [|done].
  intros Hx. pose proof (proj1 (Forall_forall _ _) Hall x Hx). lia.
Qed.

(** With fewer flags than dates the loop raises at the first index
    from 2 on that has no flag; the days 0 and 1 read slices only. *)
Example check_disposition_short_flags :
  check_disposition [1; 2; 3] [true; true] = Raise IndexError
  ∧ check_disposition [1; 2] [] = Ok [].
Proof. split; reflexivity. Qed.

(** *** The claims about [check_disposition] *)

(** C1: for dates and flags of equal length, [check_disposition] emits
    the date at index [i] if and only if Rule A (the flags at [i],
    [i-1] and [i-2] hold, with [i >= 2]), Rule B (at least 6 true flags
    at the indices [max(0,i-9) .. i]) or Rule C (at least 12 true flags
    at the indices [max(0,i-29) .. i]) holds: the result is the list of
    the dates at those indices, in order. The window of an early day
    starts at index 0: it is shorter, it is neither padded nor left
    out. *)
Theorem check_disposition_emits_iff_rules {D} (dates : list D)
    (flags : list bool) :
  length dates = length flags →
  check_disposition dates flags
  = Ok (filter (λ p, rule_A flags p.1 ∨ rule_B flags p.1 ∨ rule_C flags p.1)
          (zip (seq 0 (length dates)) dates)).*2
  ∧ (∀ d, d ∈ trigger_dates dates flags
          ↔ ∃ i : nat, dates !! i = Some d
              ∧ (rule_A flags i ∨ rule_B flags i ∨ rule_C flags i))
  ∧ (∀ i back : nat, window_start i back = (i - back)%nat)
  ∧ (∀ i back : nat, (i ≤ back)%nat →
       window_count flags (window_start i back) i
       = length (filter (λ j, flags !! j = Some true) (seq 0 (S i)))).
Proof.
  intros Hlen. split_and!.
  - apply check_disposition_trigger_dates. lia.
  - apply elem_of_trigger_dates.
  - intros i back. unfold window_start. lia.
  - intros i back Hi. unfold window_count, window_start.
    replace (Z.to_nat (0 `max` (Z.of_nat i - Z.of_nat back))) with 0%nat by lia.
    by rewrite Nat.sub_0_r.
Qed.

Lemma check_disposition_emits_iff_rules_witness :
  check_disposition [10; 11; 12; 13] [true; true; true; false] = Ok [12].
Proof.
  destruct (check_disposition_emits_iff_rules [10; 11; 12; 13]
              [true; true; true; false] eq_refl) as [-> _].
  vm_compute. reflexivity.
Defined.

(** C5: for dates in strictly ascending order (so without duplicates)
    and as many flags, [check_disposition] returns a subsequence of the
    dates that is strictly increasing, has no duplicate and holds dates
    of the input only. *)
Theorem check_disposition_subsequence (dates : list Z) (flags : list bool) :
  Sorted Z.lt dates → length dates = length flags →
  ∃ out, check_disposition dates flags = Ok out
    ∧ out `sublist_of` dates
    ∧ Sorted Z.lt out ∧ StronglySorted Z.lt out
    ∧ NoDup out
    ∧ (∀ d, d ∈ out → d ∈ dates).
Proof.
  intros Hsorted Hlen. exists (trigger_dates dates flags).
  pose proof (trigger_dates_sublist dates flags) as Hsub.
  assert (StronglySorted Z.lt (trigger_dates dates flags)) as Hstrong.
  { eapply StronglySorted_sublist; [done|].
    apply Sorted_StronglySorted; [|done]. intros x y z. lia. }
  split_and!.
  - apply check_disposition_trigger_dates. lia.
  - done.
  - by apply StronglySorted_Sorted.
  - done.
  - by apply StronglySorted_lt_NoDup.
  - intros d. by apply sublist_subseteq.
Qed.

Lemma check_disposition_subsequence_witness :
  ∃ out,
    check_disposition [20240102; 20240103; 20240104; 20240105]
      [true; true; true; true] = Ok out
    ∧ out `sublist_of` [20240102; 20240103; 20240104; 20240105]
    ∧ Sorted Z.lt out ∧ StronglySorted Z.lt out ∧ NoDup out
    ∧ (∀ d, d ∈ out → d ∈ [20240102; 20240103; 20240104; 20240105]).
Proof.
  apply check_disposition_subsequence; [|reflexivity].
  repeat (constructor; try lia).
Defined.

(** C8: on the ten flags T,T,T,F,F,F,F,F,F,F with the dates d0..d9,
    [check_disposition] returns exactly [d2]: Rule A holds at index 2,
    and Rules B and C hold at no index, no window counting more than
    three flags. *)
Theorem check_disposition_three_then_none {D} (d0 d1 d2 d3 d4 d5 d6 d7 d8 d9 : D) :
  check_disposition [d0; d1; d2; d3; d4; d5; d6; d7; d8; d9]
    flags_three_then_none = Ok [d2]
  ∧ rule_A flags_three_then_none 2
  ∧ Forall (λ i, ¬ rule_B flags_three_then_none i
                 ∧ ¬ rule_C flags_three_then_none i
                 ∧ (window_count flags_three_then_none (window_start i 9) i ≤ 3)%nat
                 ∧ (window_count flags_three_then_none (window_start i 29) i ≤ 3)%nat)
      (seq 0 10).
Proof.
  split_and!.
  - reflexivity.
  - by vm_compute.
  - repeat constructor; vm_compute; lia.
Qed.

(** C9: on the eleven alternating flags T,F,T,F,T,F,T,F,T,F,T,
    [check_disposition] returns the empty list: the window of index 9
    is [0 .. 9] and counts 5, the window of index 10 is [1 .. 10] and
    counts 5, below the 6 of Rule B, and no rule holds at any index. *)
Theorem check_disposition_alternating {D} (d0 d1 d2 d3 d4 d5 d6 d7 d8 d9 d10 : D) :
  check_disposition [d0; d1; d2; d3; d4; d5; d6; d7; d8; d9; d10]
    flags_alternating = Ok []
  ∧ window_start 9 9 = 0%nat
  ∧ window_count flags_alternating 0 9 = 5%nat
  ∧ window_start 10 9 = 1%nat
  ∧ window_count flags_alternating 1 10 = 5%nat
  ∧ Forall (λ i, ¬ triggers flags_alternating i) (seq 0 11).
Proof.
  split_and!; try reflexivity.
  repeat constructor; vm_compute; intuition (try congruence; try lia).
Qed.

(** C10: a day whose own flag is false can be emitted. After six
    flagged days the seventh, not flagged, still has 6 true flags in
    its window [0 .. 6]: Rule B holds at index 6, Rule A does not, and
    the date of index 6 is in the result. *)
Theorem check_disposition_emits_unflagged_day :
  ∃ (flags : list bool) (dates : list Z) (i : nat) (d : Z) (out : list Z),
    flags = [true; true; true; true; true; true; false]
    ∧ dates = [1; 2; 3; 4; 5; 6; 7]
    ∧ i = 6%nat
    ∧ flags !! i = Some false
    ∧ dates !! i = Some d
    ∧ check_disposition dates flags = Ok out
    ∧ d ∈ out
    ∧ ¬ rule_A flags i
    ∧ rule_B flags i
    ∧ window_count flags (window_start i 9) i = 6%nat.
Proof.
  eexists _, _, _, 7, [3; 4; 5; 6; 7]. split_and!; try reflexivity.
  - by repeat constructor.
  - vm_compute. intros (_ & ? & _). congruence.
  - vm_compute. lia.
Qed.

(** ** [compute_metrics] *)

Section compute_metrics.
Implicit Types (r p : row) (rows : list row) (prev : option row).

Lemma truediv_zero x y : is_zero y → truediv x y = Raise ZeroDivisionError.
Proof. unfold truediv, is_zero. by intros ->. Qed.

Lemma truediv_not_zero x y :
  ¬ is_zero y → truediv x y = Ok (PrimFloat.div x y).
Proof.
  unfold truediv, is_zero. intros Hy.
  by destruct (PrimFloat.eqb y 0%float).
Qed.

Lemma is_zero_dec x : {is_zero x} + {¬ is_zero x}.
Proof. unfold is_zero. destruct (PrimFloat.eqb x 0%float); [by left|by right]. Qed.

(** A division of the goal either raises, which closes the goal, or
    gives its quotient. *)
Ltac divide_by y :=
  let H := fresh "Hdiv" in
  destruct (is_zero_dec y) as [H|H];
  [by rewrite (truediv_zero _ _ H)|rewrite (truediv_not_zero _ _ H); cbn].

(** One iteration raises [ZeroDivisionError] on a zero divisor... *)
Lemma row_locals_zero_divisor prev r :
  zero_divisor_after prev r →
  row_locals (close <$> prev) (idx_close <$> prev) r = Raise ZeroDivisionError.
Proof.
  unfold row_locals, percent, price_changes. intros Hz.
  divide_by (low r). divide_by (idx_low r).
  destruct prev as [p|]; cbn.
  - unfold percent. divide_by (close p). divide_by (idx_close p).
    divide_by (outstanding r).
    destruct Hz as [?|[?|[?|(p' & [= <-] & [?|?])]]]; done.
  - divide_by (outstanding r).
    destruct Hz as [?|[?|[?|(p' & ? & _)]]]; done.
Qed.

(** ... and on no other row. *)
Lemma row_locals_divides prev r :
  ¬ zero_divisor_after prev r →
  ∃ v, row_locals (close <$> prev) (idx_close <$> prev) r = Ok v
    ∧ (prev = None → l_price_change v = Int 0 ∧ l_idx_price_change v = Int 0
                     ∧ l_price_diff v = Int 0).
Proof.
  unfold zero_divisor_after, row_locals, percent, price_changes. intros Hz.
  rewrite (truediv_not_zero _ (low r)) by tauto.
  rewrite (truediv_not_zero _ (idx_low r)) by tauto.
  rewrite (truediv_not_zero _ (outstanding r)) by tauto.
  destruct prev as [p|]; cbn.
  - unfold percent.
    rewrite (truediv_not_zero _ (close p))
      by (intros ?; apply Hz; right; right; right; eauto).
    rewrite (truediv_not_zero _ (idx_close p))
      by (intros ?; apply Hz; right; right; right; eauto).
    cbn. eexists. split; [done|]. intros [=].
  - eexists. split; [done|]. done.
Qed.

Lemma zero_divisor_after_dec prev r :
  {zero_divisor_after prev r} + {¬ zero_divisor_after prev r}.
Proof.
  unfold zero_divisor_after.
  destruct (is_zero_dec (low r)); [left; tauto|].
  destruct (is_zero_dec (idx_low r)); [left; tauto|].
  destruct (is_zero_dec (outstanding r)); [left; tauto|].
  destruct prev as [p|]; [|right; intros [?|[?|[?|(? & ? & _)]]]; done].
  destruct (is_zero_dec (close p)); [left; right; right; right; eauto|].
  destruct (is_zero_dec (idx_close p)); [left; right; right; right; eauto|].
  right. intros [?|[?|[?|(? & [= <-] & [?|?])]]]; done.
Qed.

(** The loop raises as soon as a divisor is zero, and leaves the record
    of that divisor as it was. *)
Lemma compute_metrics_from_zero_divisor rows prev i r :
  rows !! i = Some r → zero_divisor_after (before prev rows i) r →
  (compute_metrics_from (close <$> prev) (idx_close <$> prev) rows).1
  = Raise ZeroDivisionError
  ∧ (compute_metrics_from (close <$> prev) (idx_close <$> prev) rows).2 !! i
    = Some r.
Proof.
  revert prev i. induction rows as [|a rows IH]; intros prev i Hi Hz; [done|].
  cbn [compute_metrics_from].
  destruct (zero_divisor_after_dec prev a) as [Ha|Ha].
  { rewrite (row_locals_zero_divisor _ _ Ha). by cbn. }
  destruct (row_locals_divides _ _ Ha) as (v & -> & _).
  destruct i as [|j]; [by simplify_eq/=|].
  cbn in Hi. cbn [fst snd lookup list_lookup].
  apply (IH (Some (update a (stored v))) j Hi).
  destruct j as [|k]; cbn in *; [|done].
  destruct Hz as [?|[?|[?|(p & [= <-] & Hp)]]];
    [by left|by right; left|by right; right; left|].
  right; right; right. by eexists.
Qed.

(** Without a zero divisor the loop returns, every record enriched. *)
Lemma compute_metrics_from_divides rows prev :
  (∀ i r, rows !! i = Some r → ¬ zero_divisor_after (before prev rows i) r) →
  (compute_metrics_from (close <$> prev) (idx_close <$> prev) rows).1 = Ok ().
Proof.
  revert prev. induction rows as [|a rows IH]; intros prev Hno; [done|].
  cbn [compute_metrics_from].
  destruct (row_locals_divides prev a) as (v & -> & _).
  { by apply (Hno 0%nat). }
  cbn [fst]. apply (IH (Some (update a (stored v)))).
  intros i r Hi Hz. apply (Hno (S i) r Hi).
  destruct i as [|k]; cbn in *; [|done].
  destruct Hz as [?|[?|[?|(p & [= <-] & Hp)]]];
    [by left|by right; left|by right; right; left|].
  right; right; right. by eexists.
Qed.

(** The frame of the loop: length, order and raw entries. *)
Lemma compute_metrics_from_same_raw rows pc pic :
  Forall2 same_raw rows (compute_metrics_from pc pic rows).2.
Proof.
  revert pc pic. induction rows as [|a rows IH]; intros pc pic; cbn.
  { constructor. }
  destruct (row_locals pc pic a) as [v|e]; cbn.
  - constructor; [by repeat split|apply IH].
  - apply Forall2_same_length_lookup_2; [done|].
    intros i x y Hx Hy. simplify_eq. by repeat split.
Qed.

Lemma compute_metrics_from_derived rows pc pic :
  (compute_metrics_from pc pic rows).1 = Ok () →
  Forall (λ r, is_Some (derived r)) (compute_metrics_from pc pic rows).2.
Proof.
  revert pc pic. induction rows as [|a rows IH]; intros pc pic; cbn.
  { constructor. }
  destruct (row_locals pc pic a) as [v|e]; cbn; [|done].
  intros Hok. constructor; [by eexists|by apply IH].
Qed.

(** [compute_metrics] returns exactly on the lists without a zero
    divisor: no other value of a record makes it raise. *)
Lemma compute_metrics_returns_iff rows :
  (compute_metrics rows).1 = Ok () ↔ ∀ i, ¬ zero_divisor rows i.
Proof.
  split.
  - intros Hok i (r & Hi & Hz).
    destruct (compute_metrics_from_zero_divisor rows None i r Hi) as [Hr _].
    + destruct Hz as [?|[?|[?|(j & p & -> & Hj & Hp)]]];
        [by left|by right; left|by right; right; left|].
      right; right; right. by exists p.
    + unfold compute_metrics in Hok. cbn in Hr. congruence.
  - intros Hno. apply (compute_metrics_from_divides rows None).
    intros i r Hi Hz. apply (Hno i). exists r. split; [done|].
    destruct Hz as [?|[?|[?|(p & Hp & Hz)]]];
      [by left|by right; left|by right; right; left|].
    right; right; right. destruct i as [|j]; [done|]. by exists j, p.
Qed.

End compute_metrics.

(** The two figures of the specification: a low of 90 and a high of
    100 give an amplitude of 11.11...; a close of 106 after a close of
    100 gives a price change of 6, which is not above 6. *)
Example amplitude_90_100 :
  percent 100 90 90 = Ok (Float 0x1.638e38e38e38ep+3%float).
Proof. vm_compute. reflexivity. Qed.

Example price_change_100_106 :
  percent 106 100 100 = Ok (Float 6%float)
  ∧ gt (Float 6%float) (Int 6) = false.
Proof. split; vm_compute; reflexivity. Qed.

(** *** The claims about [compute_metrics] *)

(** C3, as the code has it: [compute_metrics] raises (Python's
    [ZeroDivisionError]; the module has no error class of its own)
    whenever a record has [low == 0], [idx_low == 0] or
    [outstanding == 0], or the record before it has [close == 0] or
    [idx_close == 0]. The record with the zero divisor gets no metric:
    it is left as it was. *)
Theorem compute_metrics_zero_divisor (rows : list row) (i : nat) :
  zero_divisor rows i →
  (compute_metrics rows).1 = Raise ZeroDivisionError
  ∧ (compute_metrics rows).2 !! i = rows !! i.
Proof.
  intros (r & Hi & Hz). rewrite Hi.
  apply (compute_metrics_from_zero_divisor rows None i r Hi).
  destruct Hz as [?|[?|[?|(j & p & -> & Hj & Hp)]]];
    [by left|by right; left|by right; right; left|].
  right; right; right. by exists p.
Qed.

Lemma compute_metrics_zero_divisor_witness :
  (compute_metrics [ordinary_row; no_shares_row]).1 = Raise ZeroDivisionError
  ∧ (compute_metrics [ordinary_row; no_shares_row]).2 !! 1%nat
    = Some no_shares_row.
Proof.
  apply (compute_metrics_zero_divisor [ordinary_row; no_shares_row] 1).
  exists no_shares_row. split; [reflexivity|].
  right; right; left. reflexivity.
Defined.

(** C3 as stated fails: a record with a negative [low] raises nothing,
    and gets a negative amplitude (-10100, and -10101.0101... for the
    difference with the index). *)
Lemma compute_metrics_negative_low :
  PrimFloat.leb (low negative_low_row) 0%float = true
  ∧ compute_metrics [negative_low_row]
    = (Ok (),
       [update negative_low_row
          (Metrics (Float (-10100)%float) (Float (-0x1.3ba814afd6a05p+13)%float)
                   (Int 0) (Int 0) (Float 500%float))]).
Proof. split; vm_compute; reflexivity. Qed.

(** C4, as the code has it: [compute_metrics] returns [None] and
    enriches the records of its argument in place. After the call the
    list has the same length and order and every record has its eleven
    raw entries unchanged; when the call returns, every record holds
    the five derived entries. *)
Theorem compute_metrics_enriches_in_place (rows : list row) :
  length (compute_metrics rows).2 = length rows
  ∧ Forall2 same_raw rows (compute_metrics rows).2
  ∧ match (compute_metrics rows).1 with
    | Ok tt => Forall (λ r, is_Some (derived r)) (compute_metrics rows).2
    | Raise e => True
    end.
Proof.
  pose proof (compute_metrics_from_same_raw rows None None) as Hraw.
  split_and!.
  - symmetry. by eapply Forall2_length.
  - done.
  - destruct (compute_metrics rows).1 as [[]|e] eqn:Hout; [|done].
    by apply compute_metrics_from_derived.
Qed.

(** C4 as stated fails: the call returns [None], not a list of pairs,
    and the record passed in is not the same after the call: it holds
    the amplitude 11.11..., its difference 10.10... with the index, and
    the turnover 500. *)
Lemma compute_metrics_mutates_input :
  (compute_metrics [ordinary_row]).1 = Ok ()
  ∧ derived ordinary_row = None
  ∧ derived <$> (compute_metrics [ordinary_row]).2
    = [Some (Metrics (Float 0x1.638e38e38e38ep+3%float)
               (Float 0x1.433b79890cedep+3%float) (Int 0) (Int 0)
               (Float 500%float))]
  ∧ (compute_metrics [ordinary_row]).2 ≠ [ordinary_row].
Proof.
  split_and!; try (vm_compute; reflexivity).
  intros Heq. apply (f_equal (fmap derived)) in Heq. vm_compute in Heq.
  discriminate Heq.
Qed.

(** C6: the first record of a list gets [price_change = 0] and
    [idx_price_change = 0], hence [price_diff = 0], whatever its
    [close]: these are the values the first iteration assigns and, when
    no divisor of the first record is zero, the values it stores in the
    record. (On a zero divisor the first iteration raises and stores
    nothing.) *)
Theorem compute_metrics_first_row (r : row) (rest : list row) :
  price_changes None None r = Ok (Int 0, Int 0)
  ∧ num_sub (Int 0) (Int 0) = Int 0
  ∧ if first_row_divides r
    then ∃ v rest',
        row_locals None None r = Ok v
        ∧ l_price_change v = Int 0
        ∧ l_idx_price_change v = Int 0
        ∧ l_price_diff v = Int 0
        ∧ (compute_metrics (r :: rest)).2 = update r (stored v) :: rest'
        ∧ price_change (stored v) = Int 0
        ∧ price_diff (stored v) = Int 0
    else compute_metrics (r :: rest) = (Raise ZeroDivisionError, r :: rest).
Proof.
  split_and!; [done..|].
  unfold first_row_divides, compute_metrics. cbn [compute_metrics_from].
  destruct (zero_divisor_after_dec None r) as [Hz|Hz].
  - pose proof (row_locals_zero_divisor None r Hz) as Hr. cbn in Hr.
    rewrite Hr.
    destruct Hz as [Hz|[Hz|[Hz|(? & ? & _)]]]; [..|done];
      unfold is_zero in Hz; rewrite Hz; cbn; by rewrite ?andb_false_r.
  - destruct (row_locals_divides None r Hz) as (v & Hv & Hzero).
    cbn in Hv. rewrite Hv.
    destruct (Hzero eq_refl) as (Hpc & Hipc & Hpd).
    unfold zero_divisor_after, is_zero in Hz.
    destruct (PrimFloat.eqb (low r) 0%float); [tauto|].
    destruct (PrimFloat.eqb (idx_low r) 0%float); [tauto|].
    destruct (PrimFloat.eqb (outstanding r) 0%float); [tauto|].
    cbn. by eexists _, _.
Qed.

(** ** [flag_unusual] *)

Section flag_unusual.
Implicit Types (r : row) (rows : list row) (m : metrics).

Lemma flagged_unusual r m :
  derived r = Some m → flagged r = Ok (bool_decide (unusual m (volume r))).
Proof.
  intros Hm. unfold flagged. rewrite Hm. f_equal.
  set (b := (_ || _)%bool).
  assert (Hb : b ↔ unusual m (volume r)).
  { unfold b, unusual. rewrite !orb_True, !andb_True. tauto. }
  destruct b; symmetry.
  - apply bool_decide_eq_true, Hb. done.
  - apply bool_decide_eq_false. intros Hu. by apply Hb in Hu.
Qed.

(** The flag of one row, when the row has its metrics. *)
Lemma flag_unusual_from rows (acc : list bool) :
  Forall (λ r, is_Some (derived r)) rows →
  ∃ flags,
    for_in rows (λ r flags, f ← flagged r; Ok (flags ++ [f])) acc
    = Ok (acc ++ flags)
    ∧ length flags = length rows
    ∧ ∀ (i : nat) r m, rows !! i = Some r → derived r = Some m →
        flags !! i = Some (bool_decide (unusual m (volume r))).
Proof.
  intros Hall. revert acc.
  induction Hall as [|r rows [m Hm] _ IH]; intros acc.
  { exists []. by rewrite app_nil_r. }
  cbn [for_in]. rewrite (flagged_unusual r m Hm). cbn.
  destruct (IH (acc ++ [bool_decide (unusual m (volume r))]))
    as (flags & -> & Hlen & Hflags).
  exists (bool_decide (unusual m (volume r)) :: flags). split_and!.
  - by rewrite <- (assoc_L (++)).
  - cbn. by rewrite Hlen.
  - intros [|i] r' m' Hr' Hm'; cbn in *; [by simplify_eq|by eapply Hflags].
Qed.

End flag_unusual.

(** C2: on a list of rows that hold their metrics, [flag_unusual]
    returns one boolean per row, in order; the one of day [i] is true
    if and only if (amplitude > 9 and amplitude_diff > 5 and
    volume >= 3000) or (price_change > 6 and price_diff > 4 and
    volume >= 3000) or (turnover > 10 and volume >= 3000), on the
    metrics and volume of day [i] alone. The five thresholds on the
    metrics are strict and the floor on the volume is not: a metric
    equal to its threshold does not count, a volume of 3000 does. *)
Theorem flag_unusual_per_day (rows : list row) :
  Forall (λ r, is_Some (derived r)) rows →
  ∃ flags,
    flag_unusual rows = Ok flags
    ∧ length flags = length rows
    ∧ (∀ (i : nat) r m, rows !! i = Some r → derived r = Some m →
         flags !! i = Some (bool_decide (unusual m (volume r)))
         ∧ (bool_decide (unusual m (volume r)) = true
            ↔ (gt (amplitude m) (Int 9) ∧ gt (amplitude_diff m) (Int 5)
               ∧ ge (Float (volume r)) (Int 3000))
              ∨ (gt (price_change m) (Int 6) ∧ gt (price_diff m) (Int 4)
                 ∧ ge (Float (volume r)) (Int 3000))
              ∨ (gt (turnover m) (Int 10)
                 ∧ ge (Float (volume r)) (Int 3000))))
    ∧ (∀ x : float,
         gt (Float x) (Int 9) = PrimFloat.ltb 9%float x
         ∧ gt (Float x) (Int 5) = PrimFloat.ltb 5%float x
         ∧ gt (Float x) (Int 6) = PrimFloat.ltb 6%float x
         ∧ gt (Float x) (Int 4) = PrimFloat.ltb 4%float x
         ∧ gt (Float x) (Int 10) = PrimFloat.ltb 10%float x
         ∧ ge (Float x) (Int 3000) = PrimFloat.leb 3000%float x)
    ∧ gt (Float 9%float) (Int 9) = false
    ∧ gt (Float 5%float) (Int 5) = false
    ∧ gt (Float 6%float) (Int 6) = false
    ∧ gt (Float 4%float) (Int 4) = false
    ∧ gt (Float 10%float) (Int 10) = false
    ∧ ge (Float 3000%float) (Int 3000) = true.
Proof.
  intros Hall.
  destruct (flag_unusual_from rows [] Hall) as (flags & Hrun & Hlen & Hflags).
  exists flags. split_and!; try reflexivity; try done.
  intros i r m Hr Hm. split; [by eapply Hflags|].
  rewrite bool_decide_eq_true. reflexivity.
Qed.

Lemma flag_unusual_per_day_witness :
  ∃ flags,
    flag_unusual (compute_metrics [ordinary_row; negative_low_row]).2
    = Ok flags
    ∧ length flags = 2%nat.
Proof.
  destruct (flag_unusual_per_day
              (compute_metrics [ordinary_row; negative_low_row]).2)
    as (flags & Hrun & Hlen & _).
  - repeat constructor; vm_compute; eauto.
  - exists flags. split; [exact Hrun|exact Hlen].
Defined.

(** ** [fetch_limit_up] *)

Import LimitUpTw.

(** C7, as the code has it: [fetch_limit_up] fails with the fetch
    error of the module, [RuntimeError("Failed to fetch data: ...")],
    when the request raises a [URLError], the one class its [except]
    clause names; a transport failure of another class, such as a
    connection reset while the body is read, goes through unchanged.
    It fails with its API error, [RuntimeError("API error: ...")],
    when the decoded payload is a JSON object whose [stat] entry is
    not the string "OK" (or is missing). *)
Theorem fetch_limit_up_errors (today : str) (urlopen : str → response)
    (json_loads : str → result json) (date : option str) :
  (∀ reason,
     urlopen (url (default today date)) = URLError reason →
     fetch_limit_up today urlopen json_loads date
     = Raise (RuntimeError "Failed to fetch data: " (OfURLError reason)))
  ∧ (∀ e,
       urlopen (url (default today date)) = Failed e →
       fetch_limit_up today urlopen json_loads date = Raise e)
  ∧ (∀ content items,
       urlopen (url (default today date)) = Body content →
       json_loads content = Ok (JObj items) →
       dict_get items (lit "stat") ≠ Some (JStr (lit "OK")) →
       fetch_limit_up today urlopen json_loads date
       = Raise (RuntimeError "API error: "
                  (OfValue (dict_get items (lit "stat"))))).
Proof.
  split_and!.
  - intros reason Hurl. unfold fetch_limit_up, fetch. by rewrite Hurl.
  - intros e Hurl. unfold fetch_limit_up, fetch. by rewrite Hurl.
  - intros content items Hurl Hjson.
    unfold fetch_limit_up, fetch. rewrite Hurl.
    generalize (lit "stat") (lit "OK") (lit "data"). intros k ok data Hstat.
    cbn. rewrite Hjson. cbn.
    destruct (dict_get items k) as [[]|] eqn:Hget; cbn; try done.
    case_bool_decide; [congruence|done].
Qed.

Lemma fetch_limit_up_errors_witness :
  fetch_limit_up (lit "20240102") (λ _, URLError (lit "timed out"))
    (λ _, Raise JSONDecodeError) None
  = Raise (RuntimeError "Failed to fetch data: "
             (OfURLError (lit "timed out")))
  ∧ fetch_limit_up (lit "20240102") (λ _, Failed ConnectionResetError)
      (λ _, Raise JSONDecodeError) None
    = Raise ConnectionResetError
  ∧ fetch_limit_up (lit "20240102") (λ _, Body (lit "{}"))
      (λ _, Ok (JObj [(lit "stat", JStr (lit "No data"))])) None
    = Raise (RuntimeError "API error: "
               (OfValue (Some (JStr (lit "No data"))))).
Proof.
  split_and!.
  - apply (proj1 (fetch_limit_up_errors (lit "20240102")
                    (λ _, URLError (lit "timed out"))
                    (λ _, Raise JSONDecodeError) None)).
    reflexivity.
  - apply (proj1 (proj2 (fetch_limit_up_errors (lit "20240102")
                           (λ _, Failed ConnectionResetError)
                           (λ _, Raise JSONDecodeError) None))).
    reflexivity.
  - apply (proj2 (proj2 (fetch_limit_up_errors (lit "20240102")
                    (λ _, Body (lit "{}"))
                    (λ _, Ok (JObj [(lit "stat", JStr (lit "No data"))]))
                    None)) (lit "{}") [(lit "stat", JStr (lit "No data"))]).
    + reflexivity.
    + reflexivity.
    + vm_compute. discriminate.
Defined.

(** C7 as stated fails: when the connection is reset while the body is
    read, [resp.read()] raises [ConnectionResetError], which is no
    [URLError]: [fetch_limit_up] raises that very exception, not its
    fetch error, nor any [RuntimeError]. *)
Lemma fetch_limit_up_connection_reset :
  fetch_limit_up (lit "20240102") (λ _, Failed ConnectionResetError)
    (λ _, Raise JSONDecodeError) None
  = Raise ConnectionResetError
  ∧ ¬ ∃ text value,
        fetch_limit_up (lit "20240102") (λ _, Failed ConnectionResetError)
          (λ _, Raise JSONDecodeError) None
        = Raise (RuntimeError text value).
Proof.
  split; [reflexivity|]. intros (text & value & Heq). discriminate Heq.
Qed.

(** * Further properties of the code *)

(** ** [check_disposition]: bounds *)

Lemma for_in_app {X S} (xs ys : list X) (body : X → S → result S) (s : S) :
  for_in (xs ++ ys) body s = s' ← for_in xs body s; for_in ys body s'.
Proof.
  revert s. induction xs as [|x xs IH]; intros s; [done|].
  cbn. destruct (body x s) as [s'|e]; cbn; [apply IH|done].
Qed.

(** A slice is a [take] of a [drop], whatever the length of the list. *)
Lemma slice_take_drop_any {A} (l : list A) (a b : nat) :
  (a ≤ b)%nat → slice l (Z.of_nat a) (Z.of_nat b) = take (b - a) (drop a l).
Proof.
  intros Hab. unfold slice, slice_bound.
  destruct (Z.ltb_spec (Z.of_nat a) 0) as [?|_]; [lia|].
  destruct (Z.ltb_spec (Z.of_nat b) 0) as [?|_]; [lia|].
  destruct (decide (length l ≤ a)%nat) as [Ha|Ha].
  { rewrite !drop_ge by lia. by rewrite !take_nil. }
  destruct (decide (b ≤ length l)%nat) as [Hb|Hb].
  { rewrite !Z.min_r by lia. f_equal; [lia|f_equal; lia]. }
  rewrite Z.min_l, Z.min_r by lia.
  replace (Z.to_nat (Z.of_nat a)) with a by lia.
  rewrite !take_ge; [done|rewrite length_drop; lia..].
Qed.

Lemma window_sum_any (flags : list bool) (i back : nat) :
  builtin_sum (slice flags (Z.max 0 (Z.of_nat i - Z.of_nat back))
                 (Z.of_nat i + 1))
  = Z.of_nat (window_count flags (window_start i back) i).
Proof.
  unfold window_count, window_start.
  set (lo := Z.to_nat (Z.max 0 (Z.of_nat i - Z.of_nat back))).
  replace (Z.max 0 (Z.of_nat i - Z.of_nat back)) with (Z.of_nat lo) by lia.
  replace (Z.of_nat i + 1) with (Z.of_nat (S i)) by lia.
  rewrite slice_take_drop_any by lia. apply builtin_sum_take_drop.
Qed.

(** The days 0 and 1 read no flag by index. *)
Lemma consecutive3_rule_A_any (flags : list bool) (i : nat) :
  (i < length flags ∨ i < 2)%nat →
  consecutive3 flags (Z.of_nat i) = Ok (bool_decide (rule_A flags i)).
Proof.
  intros [Hi|Hi]; [by apply consecutive3_rule_A|].
  unfold consecutive3, rule_A.
  destruct (Z.leb_spec 2 (Z.of_nat i)) as [?|_]; [lia|].
  f_equal. symmetry. apply bool_decide_eq_false. intros [? _]. lia.
Qed.

(** From day 2 on, a day without a flag raises. *)
Lemma consecutive3_index_error (flags : list bool) (i : nat) :
  (2 ≤ i)%nat → (length flags ≤ i)%nat →
  consecutive3 flags (Z.of_nat i) = Raise IndexError.
Proof.
  intros H2 Hi. unfold consecutive3.
  destruct (Z.leb_spec 2 (Z.of_nat i)) as [_|?]; [|lia].
  by rewrite getitem_out_of_range.
Qed.

Section check_disposition_bounds.
Context {D : Type}.
Implicit Types (dates : list D) (flags : list bool) (i : nat).

Lemma check_day_triggers_any dates flags i d acc :
  (i < length flags ∨ i < 2)%nat → dates !! i = Some d →
  check_day dates flags (Z.of_nat i) acc
  = Ok (acc ++ if decide (triggers flags i) then [d] else []).
Proof.
  intros Hi Hd. unfold check_day, triggers.
  rewrite consecutive3_rule_A_any by done. cbn.
  pose proof (window_sum_any flags i 9) as H10.
  pose proof (window_sum_any flags i 29) as H30.
  change (Z.of_nat 9) with 9 in H10. change (Z.of_nat 29) with 29 in H30.
  rewrite H10, H30, (getitem_lookup _ _ _ Hd). cbn.
  unfold rule_B, rule_C.
  case_bool_decide as HA; [by rewrite decide_True by tauto|].
  destruct (Z.leb_spec 6 (Z.of_nat (window_count flags (window_start i 9) i)))
    as [HB|HB]; [rewrite decide_True; [done|right; left; lia]|].
  destruct (Z.leb_spec 12 (Z.of_nat (window_count flags (window_start i 29) i)))
    as [HC|HC]; [rewrite decide_True; [done|right; right; lia]|].
  rewrite decide_False; [by rewrite app_nil_r|].
  intros [?|[?|?]]; [done|lia..].
Qed.

Lemma check_day_index_error dates flags i acc :
  (2 ≤ i)%nat → (length flags ≤ i)%nat →
  check_day dates flags (Z.of_nat i) acc = Raise IndexError.
Proof.
  intros H2 Hi. unfold check_day.
  by rewrite consecutive3_index_error by lia.
Qed.

(** The loop over the days [length pre .. length pre + length suf - 1],
    all of them with a flag or before day 2. *)
Lemma check_disposition_days dates flags pre suf rest acc :
  dates = pre ++ suf ++ rest →
  (length pre + length suf ≤ Nat.max 2 (length flags))%nat →
  for_in (seqZ (Z.of_nat (length pre)) (Z.of_nat (length suf)))
    (check_day dates flags) acc
  = Ok (acc ++ (filter (λ p, triggers flags p.1)
                  (zip (seq (length pre) (length suf)) suf)).*2).
Proof.
  intros -> Hlen. revert pre acc Hlen.
  induction suf as [|d suf IH]; intros pre acc Hlen.
  { cbn [length]. rewrite seqZ_nil by done. cbn. by rewrite app_nil_r. }
  rewrite seqZ_cons by (cbn; lia).
  cbn [for_in length seq zip zip_with]. cbn [length] in Hlen.
  rewrite (check_day_triggers_any _ _ _ d).
  - cbn.
    specialize (IH (pre ++ [d])
      (acc ++ if decide (triggers flags (length pre)) then [d] else [])).
    assert (Hl : length (pre ++ [d]) = S (length pre))
      by (rewrite length_app; cbn; lia).
    rewrite <- (assoc_L (++) pre), !Hl in IH. cbn [app] in IH.
    replace (Z.succ (Z.of_nat (length pre))) with (Z.of_nat (S (length pre)))
      by lia.
    replace (Z.pred (Z.of_nat (S (length suf)))) with (Z.of_nat (length suf))
      by lia.
    rewrite IH by lia.
    case_decide; cbn; by rewrite <- (assoc_L (++)).
  - lia.
  - by rewrite lookup_app_r, Nat.sub_diag.
Qed.

End check_disposition_bounds.

(** X1: [check_disposition] raises [IndexError] exactly when there are
    more dates than flags and more than two dates: the days 0 and 1
    read slices only, every later day reads its own flag first.
    Otherwise it returns the dates of the days that a rule holds of. *)
Theorem check_disposition_index_error {D} (dates : list D) (flags : list bool) :
  check_disposition dates flags
  = if decide (Nat.max 2 (length flags) < length dates)%nat
    then Raise IndexError
    else Ok (trigger_dates dates flags).
Proof.
  case_decide as Hlen.
  - set (m := Nat.max 2 (length flags)) in *.
    unfold check_disposition, range.
    replace (Z.of_nat (length dates))
      with (Z.of_nat m + Z.of_nat (length dates - m)) by lia.
    rewrite seqZ_app, for_in_app, Z.add_0_l by lia.
    pose proof (check_disposition_days dates flags [] (take m dates)
                  (drop m dates) []) as Hrun.
    rewrite length_take, Nat.min_l in Hrun by lia. cbn in Hrun.
    change (Z.of_nat 0) with 0 in Hrun.
    rewrite Hrun; [|by rewrite take_drop|done]. cbn.
    rewrite seqZ_cons by lia. cbn [for_in].
    by rewrite check_day_index_error by lia.
  - unfold check_disposition, range, trigger_dates.
    apply (check_disposition_days dates flags [] dates [] []).
    + by rewrite app_nil_r.
    + cbn. lia.
Qed.

(** ** [check_disposition]: what a day depends on *)

Lemma filter_ext_elem {A} (P Q : A → Prop) `{!∀ x, Decision (P x)}
    `{!∀ x, Decision (Q x)} (l : list A) :
  (∀ x, x ∈ l → P x ↔ Q x) → filter P l = filter Q l.
Proof.
  induction l as [|x l IH]; intros Hext; [done|].
  rewrite !filter_cons, IH by (intros y Hy; apply Hext; by right).
  destruct (decide (P x)) as [HP|HP], (decide (Q x)) as [HQ|HQ]; try done;
    exfalso; apply (Hext x) in HP || apply (Hext x) in HQ; done || by left.
Qed.

Lemma window_count_agree (flags flags' : list bool) (lo hi : nat) :
  (∀ j, (j ≤ hi)%nat → flags !! j = flags' !! j) →
  window_count flags lo hi = window_count flags' lo hi.
Proof.
  intros Hagree. unfold window_count. f_equal.
  apply filter_ext_elem. intros j Hj. apply elem_of_seq in Hj.
  rewrite Hagree; [done|lia].
Qed.

(** The rules at day [i] read the flags of the days up to [i] only. *)
Lemma triggers_agree (flags flags' : list bool) (i : nat) :
  (∀ j, (j ≤ i)%nat → flags !! j = flags' !! j) →
  triggers flags i ↔ triggers flags' i.
Proof.
  intros Hagree. unfold triggers, rule_A, rule_B, rule_C.
  rewrite !(window_count_agree flags flags' _ i) by done.
  rewrite !(Hagree i), !(Hagree (i - 1)%nat), !(Hagree (i - 2)%nat) by lia.
  done.
Qed.

Lemma trigger_dates_agree {D} (dates : list D) (flags flags' : list bool) :
  (∀ j, (j < length dates)%nat → flags !! j = flags' !! j) →
  trigger_dates dates flags = trigger_dates dates flags'.
Proof.
  intros Hagree. unfold trigger_dates. f_equal.
  apply filter_ext_elem. intros [i d] Hin. cbn.
  apply elem_of_zip_seq, lookup_lt_Some in Hin.
  apply triggers_agree. intros j Hj. apply Hagree. lia.
Qed.

Lemma trigger_dates_app {D} (dates dates' : list D) (flags : list bool) :
  trigger_dates (dates ++ dates') flags
  = trigger_dates dates flags
    ++ (filter (λ p, triggers flags p.1)
          (zip (seq (length dates) (length dates')) dates')).*2.
Proof.
  unfold trigger_dates.
  rewrite length_app, seq_app, zip_with_app by (by rewrite length_seq).
  by rewrite filter_app, fmap_app.
Qed.

(** X2: the flags after the last date are never read: with at least as
    many flags as dates, [check_disposition] gives the same result on
    the flags cut to the number of dates. *)
Theorem check_disposition_extra_flags {D} (dates : list D) (flags : list bool) :
  (length dates ≤ length flags)%nat →
  check_disposition dates flags
  = check_disposition dates (take (length dates) flags).
Proof.
  intros Hlen.
  rewrite !check_disposition_trigger_dates
    by (rewrite ?length_take; lia).
  f_equal. apply trigger_dates_agree. intros j Hj.
  by rewrite lookup_take_lt.
Qed.

Lemma check_disposition_extra_flags_witness :
  check_disposition [1; 2; 3] [true; true; true; true; true]
  = check_disposition [1; 2; 3] [true; true; true].
Proof.
  apply (check_disposition_extra_flags [1; 2; 3]
           [true; true; true; true; true]).
  cbn. lia.
Defined.

(** X3: the result on the first days is not changed by the days that
    follow: the result on a longer input starts with the result on
    any of its prefixes. *)
Theorem check_disposition_prefix {D} (dates dates' : list D)
    (flags flags' : list bool) :
  length dates = length flags → (length dates' ≤ length flags')%nat →
  ∃ out later,
    check_disposition dates flags = Ok out
    ∧ check_disposition (dates ++ dates') (flags ++ flags')
      = Ok (out ++ later).
Proof.
  intros Hlen Hlen'.
  exists (trigger_dates dates flags). eexists. split.
  - apply check_disposition_trigger_dates. lia.
  - rewrite check_disposition_trigger_dates
      by (rewrite !length_app; lia).
    rewrite trigger_dates_app. f_equal. f_equal.
    apply trigger_dates_agree. intros j Hj.
    rewrite lookup_app_l; [done|lia].
Qed.

Lemma check_disposition_prefix_witness :
  ∃ out later,
    check_disposition [1; 2; 3] [true; true; true] = Ok out
    ∧ check_disposition ([1; 2; 3] ++ [4; 5]) ([true; true; true] ++ [true; false])
      = Ok (out ++ later).
Proof.
  apply check_disposition_prefix; cbn; lia.
Defined.

(** ** [check_disposition]: more flags, more days *)

Lemma filter_sublist_impl {A} (P Q : A → Prop) `{!∀ x, Decision (P x)}
    `{!∀ x, Decision (Q x)} (l : list A) :
  (∀ x, x ∈ l → P x → Q x) → filter P l `sublist_of` filter Q l.
Proof.
  induction l as [|x l IH]; intros Himpl; [done|].
  assert (filter P l `sublist_of` filter Q l) as Hsub
    by (apply IH; intros y Hy; apply Himpl; by right).
  rewrite !filter_cons.
  destruct (decide (P x)) as [HP|HP], (decide (Q x)) as [HQ|HQ].
  - by constructor.
  - destruct HQ. apply Himpl; [by left|done].
  - by constructor.
  - done.
Qed.

Lemma flags_le_lookup (flags flags' : list bool) (j : nat) :
  flags_le flags flags' → flags !! j = Some true → flags' !! j = Some true.
Proof.
  intros Hle Hj.
  destruct (Forall2_lookup_l _ _ _ _ _ Hle Hj) as (b' & Hb' & Himpl).
  rewrite Hb'. f_equal. destruct b'; [done|]. by destruct Himpl.
Qed.

Lemma window_count_mono (flags flags' : list bool) (lo hi : nat) :
  flags_le flags flags' →
  (window_count flags lo hi ≤ window_count flags' lo hi)%nat.
Proof.
  intros Hle. unfold window_count. apply sublist_length, filter_sublist_impl.
  intros j _. by apply flags_le_lookup.
Qed.

Lemma triggers_mono (flags flags' : list bool) (i : nat) :
  flags_le flags flags' → triggers flags i → triggers flags' i.
Proof.
  intros Hle. unfold triggers, rule_A, rule_B, rule_C.
  pose proof (window_count_mono flags flags' (window_start i 9) i Hle) as H10.
  pose proof (window_count_mono flags flags' (window_start i 29) i Hle) as H30.
  intros [(Hi & Hf0 & Hf1 & Hf2)|[HB|HC]].
  - left. split_and!; [done|by eapply flags_le_lookup..].
  - right; left. lia.
  - right; right. lia.
Qed.

(** X4: flagging more days never removes a day from the result: when
    every day flagged in [flags] is flagged in [flags'], the result on
    [flags] is a subsequence of the result on [flags']. *)
Theorem check_disposition_monotone {D} (dates : list D)
    (flags flags' : list bool) :
  length dates = length flags → flags_le flags flags' →
  ∃ out out',
    check_disposition dates flags = Ok out
    ∧ check_disposition dates flags' = Ok out'
    ∧ out `sublist_of` out'.
Proof.
  intros Hlen Hle. pose proof (Forall2_length _ _ _ Hle) as Hlen'.
  exists (trigger_dates dates flags), (trigger_dates dates flags').
  split_and!; [apply check_disposition_trigger_dates; lia..|].
  unfold trigger_dates. apply fmap_sublist, filter_sublist_impl.
  intros [i d] _. cbn. by apply triggers_mono.
Qed.

Lemma check_disposition_monotone_witness :
  ∃ out out',
    check_disposition [1; 2; 3; 4] [true; false; true; true] = Ok out
    ∧ check_disposition [1; 2; 3; 4] [true; true; true; true] = Ok out'
    ∧ out `sublist_of` out'.
Proof.
  apply check_disposition_monotone; [reflexivity|].
  repeat constructor; done.
Defined.

(** ** [check_disposition]: few flags, all flags *)

Lemma builtin_sum_nonneg (flags : list bool) : 0 ≤ builtin_sum flags.
Proof. induction flags as [|[] flags IH]; cbn; lia. Qed.

Lemma builtin_sum_sublist (flags flags' : list bool) :
  flags `sublist_of` flags' → builtin_sum flags ≤ builtin_sum flags'.
Proof.
  induction 1 as [|b l k _ IH|b l k _ IH]; cbn; [lia|lia|].
  destruct b; cbn; lia.
Qed.

(** A window counts no more flags than there are in all. *)
Lemma window_count_le_sum (flags : list bool) (lo hi : nat) :
  Z.of_nat (window_count flags lo hi) ≤ builtin_sum flags.
Proof.
  unfold window_count. rewrite <- builtin_sum_take_drop.
  apply builtin_sum_sublist. etrans; [apply sublist_take|apply sublist_drop].
Qed.

Lemma rule_A_window (flags : list bool) (i : nat) :
  rule_A flags i → window_count flags (i - 2) i = 3%nat.
Proof.
  intros (H2 & H0 & H1 & Hf2). unfold window_count.
  replace (S i - (i - 2))%nat with 3%nat by lia.
  replace i with (S (S (i - 2))) in H0 by lia.
  replace (i - 1)%nat with (S (i - 2)) in H1 by lia.
  cbn [seq]. by rewrite !filter_cons_True.
Qed.

(** A day that a rule holds of ends at least three flagged days. *)
Lemma triggers_three_flags (flags : list bool) (i : nat) :
  triggers flags i → 3 ≤ builtin_sum flags.
Proof.
  intros [HA|[HB|HC]].
  - pose proof (window_count_le_sum flags (i - 2) i).
    rewrite (rule_A_window _ _ HA) in *. lia.
  - pose proof (window_count_le_sum flags (window_start i 9) i).
    unfold rule_B in HB. lia.
  - pose proof (window_count_le_sum flags (window_start i 29) i).
    unfold rule_C in HC. lia.
Qed.

Lemma filter_none {A} (P : A → Prop) `{!∀ x, Decision (P x)} (l : list A) :
  (∀ x, x ∈ l → ¬ P x) → filter P l = [].
Proof.
  induction l as [|x l IH]; intros Hnone; [done|].
  rewrite filter_cons_False by (apply Hnone; by left).
  apply IH. intros y Hy. apply Hnone. by right.
Qed.

(** X5: with fewer than three flagged days in all, no day is emitted. *)
Theorem check_disposition_few_flags {D} (dates : list D) (flags : list bool) :
  length dates = length flags → builtin_sum flags < 3 →
  check_disposition dates flags = Ok [].
Proof.
  intros Hlen Hfew. rewrite check_disposition_trigger_dates by lia.
  f_equal. unfold trigger_dates.
  rewrite filter_none; [done|].
  intros [i d] _ Ht. apply triggers_three_flags in Ht. lia.
Qed.

Lemma check_disposition_few_flags_witness :
  check_disposition [1; 2; 3; 4; 5] [true; false; false; true; false] = Ok [].
Proof. apply check_disposition_few_flags; [reflexivity|cbn; lia]. Defined.

Lemma filter_all {A} (P : A → Prop) `{!∀ x, Decision (P x)} (l : list A) :
  (∀ x, x ∈ l → P x) → filter P l = l.
Proof.
  induction l as [|x l IH]; intros Hall; [done|].
  rewrite filter_cons_True by (apply Hall; by left).
  f_equal. apply IH. intros y Hy. apply Hall. by right.
Qed.

Lemma elem_of_zip_seq_from {D} (dates : list D) (k i : nat) d :
  (i, d) ∈ zip (seq k (length dates)) dates →
  (k ≤ i < k + length dates)%nat.
Proof.
  intros Hin. apply list_elem_of_lookup in Hin as [j Hj].
  apply lookup_zip_with_Some in Hj as (x & y & Heq & Hx & Hy).
  apply lookup_seq in Hx as [-> Hlt]. simplify_eq. lia.
Qed.

(** No rule holds of day 0 or day 1: their windows have two days at
    most. *)
Lemma triggers_not_before_2 (flags : list bool) (i : nat) :
  (i < 2)%nat → ¬ triggers flags i.
Proof.
  intros Hi.
  assert (∀ lo, window_count flags lo i ≤ 2)%nat as Hcount.
  { intros lo. unfold window_count.
    etrans; [apply length_filter|]. rewrite length_seq. lia. }
  intros [(H2 & _)|[HB|HC]]; [lia|..].
  - unfold rule_B in HB. specialize (Hcount (window_start i 9)). lia.
  - unfold rule_C in HC. specialize (Hcount (window_start i 29)). lia.
Qed.

Lemma rule_A_all_flagged (flags : list bool) (i : nat) :
  Forall (λ b, b = true) flags → (2 ≤ i < length flags)%nat → rule_A flags i.
Proof.
  intros Hall [H2 Hi].
  assert (∀ j, (j < length flags)%nat → flags !! j = Some true) as Hj.
  { intros j Hlt. destruct (lookup_lt_is_Some_2 flags j Hlt) as [b Hb].
    rewrite Hb. f_equal. by eapply (Forall_lookup_1 _ _ _ _ Hall). }
  split_and!; [done|apply Hj; lia..].
Qed.

(** X6: the dates of day 0 and day 1 are never emitted, and when every
    day is flagged the result is every date from day 2 on. *)
Theorem check_disposition_from_day_2 {D} (dates : list D) (flags : list bool) :
  length dates = length flags →
  ∃ out,
    check_disposition dates flags = Ok out
    ∧ out `sublist_of` drop 2 dates
    ∧ (Forall (λ b, b = true) flags → out = drop 2 dates).
Proof.
  intros Hlen. exists (trigger_dates dates flags).
  split; [apply check_disposition_trigger_dates; lia|].
  rewrite <- (take_drop 2 dates) at 1 3.
  rewrite trigger_dates_app.
  assert (trigger_dates (take 2 dates) flags = []) as ->.
  { unfold trigger_dates. rewrite filter_none; [done|].
    intros [i d] Hin. cbn. apply triggers_not_before_2.
    apply elem_of_zip_seq_from in Hin. rewrite length_take in Hin. lia. }
  cbn [app].
  assert ((zip (seq (length (take 2 dates)) (length (drop 2 dates)))
             (drop 2 dates)).*2 = drop 2 dates) as Hsnd
    by (apply snd_zip; by rewrite length_seq).
  split.
  - etrans; [apply fmap_sublist, (sublist_filter _)|by rewrite Hsnd].
  - intros Hall. rewrite filter_all; [done|].
    intros [i d] Hin. cbn. left. apply rule_A_all_flagged; [done|].
    apply elem_of_zip_seq_from in Hin.
    rewrite length_take, length_drop in Hin.
    destruct (decide (length dates < 2)%nat) as [Hshort|Hlong]; [|lia].
    rewrite length_drop in *. lia.
Qed.

Lemma check_disposition_from_day_2_witness :
  ∃ out,
    check_disposition [1; 2; 3; 4; 5] [true; true; true; true; true] = Ok out
    ∧ out `sublist_of` drop 2 [1; 2; 3; 4; 5]
    ∧ (Forall (λ b, b = true) [true; true; true; true; true] →
       out = drop 2 [1; 2; 3; 4; 5]).
Proof. apply check_disposition_from_day_2. reflexivity. Defined.

(** ** [compute_metrics]: outcome and state *)

Section compute_metrics_state.
Implicit Types (r p : row) (rows : list row) (prev : option row).

Lemma zero_divisor_before rows i :
  zero_divisor rows i
  ↔ ∃ r, rows !! i = Some r ∧ zero_divisor_after (before None rows i) r.
Proof.
  unfold zero_divisor, zero_divisor_after. split.
  - intros (r & Hi & [?|[?|[?|(j & p & -> & Hj & Hp)]]]); exists r;
      (split; [done|]); [by left|by right; left|by right; right; left|].
    right; right; right. by exists p.
  - intros (r & Hi & [?|[?|[?|(p & Hp & Hz)]]]); exists r;
      (split; [done|]); [by left|by right; left|by right; right; left|].
    right; right; right. destruct i as [|j]; [done|]. by exists j, p.
Qed.

(** The entries an iteration stores are those of the closed form. *)
Lemma row_locals_metrics_of prev r v :
  row_locals (close <$> prev) (idx_close <$> prev) r = Ok v →
  stored v = metrics_of prev r.
Proof.
  unfold row_locals, percent, price_changes, truediv, metrics_of.
  destruct (PrimFloat.eqb (low r) 0%float); [done|].
  destruct (PrimFloat.eqb (idx_low r) 0%float); [done|]. cbn.
  destruct prev as [p|]; cbn.
  - unfold percent, truediv.
    destruct (PrimFloat.eqb (close p) 0%float); [done|].
    destruct (PrimFloat.eqb (idx_close p) 0%float); [done|]. cbn.
    destruct (PrimFloat.eqb (outstanding r) 0%float); [done|]. cbn.
    by intros [= <-].
  - destruct (PrimFloat.eqb (outstanding r) 0%float); [done|]. cbn.
    by intros [= <-].
Qed.

(** The loop can only raise [ZeroDivisionError], at a zero divisor. *)
Lemma compute_metrics_from_raise rows prev e :
  (compute_metrics_from (close <$> prev) (idx_close <$> prev) rows).1
  = Raise e →
  e = ZeroDivisionError
  ∧ ∃ i r, rows !! i = Some r ∧ zero_divisor_after (before prev rows i) r.
Proof.
  revert prev. induction rows as [|a rows IH]; intros prev; [done|].
  cbn [compute_metrics_from].
  destruct (zero_divisor_after_dec prev a) as [Ha|Ha].
  - rewrite (row_locals_zero_divisor _ _ Ha). cbn. intros [= <-].
    split; [done|]. by exists 0%nat, a.
  - destruct (row_locals_divides _ _ Ha) as (v & -> & _). cbn [fst].
    intros Hraise. destruct (IH (Some a) Hraise) as (-> & i & r & Hi & Hz).
    split; [done|]. exists (S i), r. split; [done|].
    by destruct i.
Qed.

(** When the loop returns, every record holds the closed form. *)
Lemma compute_metrics_from_enriched rows prev :
  (compute_metrics_from (close <$> prev) (idx_close <$> prev) rows).1 = Ok () →
  (compute_metrics_from (close <$> prev) (idx_close <$> prev) rows).2
  = enriched prev rows.
Proof.
  revert prev. induction rows as [|a rows IH]; intros prev; [done|].
  cbn [compute_metrics_from enriched].
  destruct (row_locals (close <$> prev) (idx_close <$> prev) a)
    as [v|e] eqn:Hv; [|done].
  cbn [fst snd]. intros Hok.
  rewrite (row_locals_metrics_of _ _ _ Hv). f_equal. by apply (IH (Some a)).
Qed.

(** When it raises, at the first zero divisor, the records before hold
    the closed form and the others are as they were. *)
Lemma compute_metrics_from_partial rows prev (k : nat) r :
  rows !! k = Some r → zero_divisor_after (before prev rows k) r →
  (∀ j r', (j < k)%nat → rows !! j = Some r' →
           ¬ zero_divisor_after (before prev rows j) r') →
  (compute_metrics_from (close <$> prev) (idx_close <$> prev) rows).2
  = take k (enriched prev rows) ++ drop k rows.
Proof.
  revert prev k. induction rows as [|a rows IH]; intros prev k Hk Hz Hfirst;
    [done|].
  cbn [compute_metrics_from enriched].
  destruct k as [|k].
  { cbn in Hk, Hz. simplify_eq. by rewrite (row_locals_zero_divisor _ _ Hz). }
  destruct (row_locals (close <$> prev) (idx_close <$> prev) a)
    as [v|e] eqn:Hv.
  - cbn [fst snd take drop app].
    rewrite (row_locals_metrics_of _ _ _ Hv). f_equal.
    apply (IH (Some a) k Hk).
    + by destruct k.
    + intros j r' Hj Hr'. specialize (Hfirst (S j) r').
      destruct j; apply Hfirst; done || lia.
  - destruct (Hfirst 0%nat a); [lia|done|].
    destruct (zero_divisor_after_dec prev a) as [Ha|Ha]; [done|].
    destruct (row_locals_divides _ _ Ha) as (v & Hv' & _). congruence.
Qed.

Lemma enriched_lookup rows prev (i : nat) r :
  rows !! i = Some r →
  enriched prev rows !! i = Some (update r (metrics_of (before prev rows i) r)).
Proof.
  revert prev i. induction rows as [|a rows IH]; intros prev i Hi; [done|].
  destruct i as [|i]; [by simplify_eq/=|].
  etrans; [apply (IH (Some a) i Hi)|]. by destruct i.
Qed.

Lemma length_enriched rows prev : length (enriched prev rows) = length rows.
Proof. revert prev. induction rows; intros prev; cbn; auto. Qed.

Lemma enriched_derived rows prev :
  Forall (λ r, is_Some (derived r)) (enriched prev rows).
Proof.
  revert prev. induction rows as [|a rows IH]; intros prev; cbn;
    constructor; [by eexists|apply IH].
Qed.

End compute_metrics_state.

(** X7: [compute_metrics] returns exactly when no divisor is zero, and
    the only exception it can raise is [ZeroDivisionError]: no negative
    value, infinity or NaN in a record makes it fail. *)
Theorem compute_metrics_outcome (rows : list row) :
  ((compute_metrics rows).1 = Ok () ∧ ∀ i, ¬ zero_divisor rows i)
  ∨ ((compute_metrics rows).1 = Raise ZeroDivisionError
     ∧ ∃ i, zero_divisor rows i).
Proof.
  destruct (compute_metrics rows).1 as [[]|e] eqn:Hout.
  - left. split; [done|]. by apply compute_metrics_returns_iff.
  - right.
    destruct (compute_metrics_from_raise rows None e Hout)
      as (-> & i & r & Hi & Hz).
    split; [done|]. exists i. apply zero_divisor_before. by exists r.
Qed.

(** X8: when [compute_metrics] raises, at the first record [k] with a
    zero divisor, the records before [k] have been enriched and the
    records from [k] on are as they were: the caller's list is left
    half updated. *)
Theorem compute_metrics_partial_update (rows : list row) (k : nat) :
  zero_divisor rows k → (∀ j, (j < k)%nat → ¬ zero_divisor rows j) →
  (compute_metrics rows).1 = Raise ZeroDivisionError
  ∧ (compute_metrics rows).2 = take k (enriched None rows) ++ drop k rows
  ∧ Forall (λ r, is_Some (derived r)) (take k (compute_metrics rows).2)
  ∧ drop k (compute_metrics rows).2 = drop k rows.
Proof.
  intros Hz Hfirst. pose proof Hz as Hz'.
  apply zero_divisor_before in Hz' as (r & Hk & Hzk).
  assert ((compute_metrics rows).2 = take k (enriched None rows) ++ drop k rows)
    as Hstate.
  { apply (compute_metrics_from_partial rows None k r Hk Hzk).
    intros j r' Hj Hr' Hzj. apply (Hfirst j Hj).
    apply zero_divisor_before. by exists r'. }
  assert (length (take k (enriched None rows)) = k) as Hlen.
  { rewrite length_take, length_enriched. apply Nat.min_l.
    apply lookup_lt_Some in Hk. lia. }
  split_and!.
  - by apply (compute_metrics_from_zero_divisor rows None k r).
  - done.
  - rewrite Hstate, take_app_length' by done.
    apply Forall_take, enriched_derived.
  - by rewrite Hstate, drop_app_length' by done.
Qed.

Lemma compute_metrics_partial_update_witness :
  (compute_metrics [ordinary_row; no_shares_row; negative_low_row]).1
  = Raise ZeroDivisionError
  ∧ (compute_metrics [ordinary_row; no_shares_row; negative_low_row]).2
    = take 1 (enriched None [ordinary_row; no_shares_row; negative_low_row])
      ++ drop 1 [ordinary_row; no_shares_row; negative_low_row]
  ∧ Forall (λ r, is_Some (derived r))
      (take 1 (compute_metrics
                 [ordinary_row; no_shares_row; negative_low_row]).2)
  ∧ drop 1 (compute_metrics [ordinary_row; no_shares_row; negative_low_row]).2
    = drop 1 [ordinary_row; no_shares_row; negative_low_row].
Proof.
  apply compute_metrics_partial_update.
  - exists no_shares_row. split; [reflexivity|].
    right; right; left. reflexivity.
  - intros j Hj (r & Hr & Hz). destruct j as [|j]; [|lia].
    cbn in Hr. injection Hr as <-.
    destruct Hz as [Hz|[Hz|[Hz|(? & ? & [=] & _)]]];
      vm_compute in Hz; discriminate Hz.
Defined.

(** X9: when no divisor is zero, [compute_metrics] leaves in every
    record the entries of the closed form: amplitude and turnover from
    the record itself, the price change from the close of the record
    just before it in the list (0 for the first record), whatever the
    dates of the two records. *)
Theorem compute_metrics_closed_form (rows : list row) :
  (∀ i, ¬ zero_divisor rows i) →
  compute_metrics rows = (Ok (), enriched None rows)
  ∧ ∀ (i : nat) r, rows !! i = Some r →
      (compute_metrics rows).2 !! i
      = Some (update r (metrics_of (before None rows i) r)).
Proof.
  intros Hno. apply compute_metrics_returns_iff in Hno.
  pose proof (compute_metrics_from_enriched rows None Hno) as Hstate.
  split.
  - unfold compute_metrics in *. cbn in Hstate, Hno.
    destruct (compute_metrics_from None None rows) as [out state].
    cbn in *. by subst.
  - intros i r Hi. unfold compute_metrics. cbn in Hstate. rewrite Hstate.
    by apply enriched_lookup.
Qed.

Lemma compute_metrics_closed_form_witness :
  compute_metrics [ordinary_row; negative_low_row]
  = (Ok (), enriched None [ordinary_row; negative_low_row])
  ∧ ∀ (i : nat) r, [ordinary_row; negative_low_row] !! i = Some r →
      (compute_metrics [ordinary_row; negative_low_row]).2 !! i
      = Some (update r
                (metrics_of (before None [ordinary_row; negative_low_row] i) r)).
Proof.
  apply compute_metrics_closed_form.
  apply compute_metrics_returns_iff. vm_compute. reflexivity.
Defined.

Lemma compute_metrics_from_again (rows : list row) (pc pic : option float) :
  compute_metrics_from pc pic (compute_metrics_from pc pic rows).2
  = compute_metrics_from pc pic rows.
Proof.
  revert pc pic. induction rows as [|a rows IH]; intros pc pic; [done|].
  cbn [compute_metrics_from].
  destruct (row_locals pc pic a) as [v|e] eqn:Hv; cbn [snd fst].
  - cbn [compute_metrics_from].
    change (row_locals pc pic (update a (stored v)))
      with (row_locals pc pic a).
    rewrite Hv. cbn [update close idx_close].
    change (update (update a (stored v)) (stored v))
      with (update a (stored v)).
    by rewrite IH.
  - cbn [compute_metrics_from]. by rewrite Hv.
Qed.

(** X10: [compute_metrics] is idempotent on the list it updates: a
    second call on the same list has the same outcome and leaves the
    list as the first call left it, also after a raise. *)
Theorem compute_metrics_idempotent (rows : list row) :
  compute_metrics (compute_metrics rows).2 = compute_metrics rows.
Proof. apply compute_metrics_from_again. Qed.

(** ** [flag_unusual]: missing entries, volume floor, first day *)

Lemma flag_unusual_missing (rows : list row) (acc : list bool) :
  Exists (λ r, derived r = None) rows →
  for_in rows (λ r flags, f ← flagged r; Ok (flags ++ [f])) acc
  = Raise (KeyError "amplitude").
Proof.
  intros Hex. revert acc.
  induction rows as [|r rows IH]; intros acc; [by inversion Hex|].
  cbn [for_in]. destruct (derived r) as [m|] eqn:Hm.
  - rewrite (flagged_unusual r m Hm). cbn. apply IH.
    inversion Hex as [? ? Hr|]; [congruence|done].
  - assert (flagged r = Raise (KeyError "amplitude")) as ->
      by (unfold flagged; by rewrite Hm).
    done.
Qed.

(** X11: [flag_unusual] raises [KeyError('amplitude')] exactly when a
    row lacks the derived entries, that is on rows that
    [compute_metrics] has not processed; otherwise it returns one flag
    a row. It raises nothing else. *)
Theorem flag_unusual_key_error (rows : list row) :
  (Forall (λ r, is_Some (derived r)) rows
   ∧ ∃ flags, flag_unusual rows = Ok flags ∧ length flags = length rows)
  ∨ (Exists (λ r, derived r = None) rows
     ∧ flag_unusual rows = Raise (KeyError "amplitude")).
Proof.
  destruct (decide (Forall (λ r, is_Some (derived r)) rows)) as [Hall|Hnot].
  - left. split; [done|].
    destruct (flag_unusual_from rows [] Hall) as (flags & Hrun & Hlen & _).
    by exists flags.
  - right. apply not_Forall_Exists in Hnot; [|apply _].
    assert (Exists (λ r, derived r = None) rows) as Hex.
    { eapply Exists_impl; [exact Hnot|]. cbn. intros r Hr.
      destruct (derived r); [|done]. destruct Hr. by eexists. }
    split; [done|]. by apply flag_unusual_missing.
Qed.

(** X12: a day with a volume that is not at least 3000 (below it, or
    NaN) is never flagged, whatever its metrics. *)
Theorem flag_unusual_volume_floor (rows : list row) (i : nat) (r : row) :
  Forall (λ r, is_Some (derived r)) rows →
  rows !! i = Some r →
  PrimFloat.leb 3000%float (volume r) = false →
  ∃ flags, flag_unusual rows = Ok flags ∧ flags !! i = Some false.
Proof.
  intros Hall Hi Hvol.
  destruct (flag_unusual_from rows [] Hall) as (flags & Hrun & _ & Hflags).
  exists flags. split; [done|].
  destruct (proj1 (Forall_lookup _ _) Hall i r Hi) as [m Hm].
  rewrite (Hflags i r m Hi Hm). f_equal.
  apply bool_decide_eq_false. unfold unusual.
  change (ge (Float (volume r)) (Int 3000))
    with (PrimFloat.leb 3000%float (volume r)).
  rewrite Hvol. intros [(_ & _ & [])|[(_ & _ & [])|(_ & [])]].
Qed.

Lemma flag_unusual_volume_floor_witness :
  ∃ flags,
    flag_unusual
      [update (Row 20240102 100 120 90 110 2999 100 100 99 100 1000 None)
         (Metrics (Float 33%float) (Float 32%float) (Float 10%float)
            (Float 10%float) (Float 300%float))]
    = Ok flags
    ∧ flags !! 0%nat = Some false.
Proof.
  eapply (flag_unusual_volume_floor _ 0%nat).
  - repeat constructor. by eexists.
  - reflexivity.
  - reflexivity.
Defined.

(** X13: the price-change rule cannot flag the first day of a list:
    after [compute_metrics], the flag of the first row is that of its
    amplitude and of its turnover alone, whatever its close. *)
Theorem flag_unusual_first_day (r : row) (rest : list row) :
  (∀ i, ¬ zero_divisor (r :: rest) i) →
  ∃ flags,
    flag_unusual (compute_metrics (r :: rest)).2 = Ok flags
    ∧ flags !! 0%nat
      = Some ((gt (amplitude (metrics_of None r)) (Int 9)
               && gt (amplitude_diff (metrics_of None r)) (Int 5)
               || gt (turnover (metrics_of None r)) (Int 10))
              && ge (Float (volume r)) (Int 3000)).
Proof.
  intros Hno.
  apply compute_metrics_returns_iff in Hno.
  pose proof (compute_metrics_from_enriched (r :: rest) None Hno) as Hrun.
  unfold compute_metrics. cbn [fmap option_fmap option_map] in Hrun.
  rewrite Hrun. cbn [enriched].
  pose proof (enriched_derived (r :: rest) None) as Hall. cbn [enriched] in Hall.
  destruct (flag_unusual_from _ [] Hall) as (flags & Hflags & _ & Hlookup).
  exists flags. split; [done|].
  rewrite (Hlookup 0%nat _ _ eq_refl eq_refl). f_equal.
  cbn [volume update].
  remember (metrics_of None r) as m eqn:Hm.
  assert (price_change m = Int 0) as Hpc by (by rewrite Hm).
  clear Hm.
  destruct (ge (Float (volume r)) (Int 3000)) eqn:Hv.
  - destruct (gt (amplitude m) (Int 9) && gt (amplitude_diff m) (Int 5)
              || gt (turnover m) (Int 10)) eqn:Hc.
    + apply bool_decide_eq_true. unfold unusual. rewrite Hv.
      apply orb_prop in Hc as [Hc|Hc].
      * apply andb_prop in Hc as [-> ->]. by left.
      * rewrite Hc. by right; right.
    + apply bool_decide_eq_false. unfold unusual. rewrite Hpc.
      apply orb_false_elim in Hc as [Hc ->].
      intros [(Ha & Hd & _)|[([] & _)|([] & _)]].
      destruct (gt (amplitude m) (Int 9)), (gt (amplitude_diff m) (Int 5));
        done.
  - rewrite andb_false_r. apply bool_decide_eq_false. unfold unusual.
    rewrite Hv. intros [(_ & _ & [])|[(_ & _ & [])|(_ & [])]].
Qed.

Lemma flag_unusual_first_day_witness :
  ∃ flags,
    flag_unusual (compute_metrics (ordinary_row :: [negative_low_row])).2
    = Ok flags
    ∧ flags !! 0%nat
      = Some ((gt (amplitude (metrics_of None ordinary_row)) (Int 9)
               && gt (amplitude_diff (metrics_of None ordinary_row)) (Int 5)
               || gt (turnover (metrics_of None ordinary_row)) (Int 10))
              && ge (Float (volume ordinary_row)) (Int 3000)).
Proof.
  apply flag_unusual_first_day.
  apply compute_metrics_returns_iff. vm_compute. reflexivity.
Defined.

(** ** [main]: the sort and the three stages together *)

Section sort_rows.
Implicit Types (r : row) (rows : list row).

Lemma insert_row_perm r rows : insert_row r rows ≡ₚ r :: rows.
Proof.
  induction rows as [|x rows IH]; [done|]. cbn.
  destruct (date r <=? date x); [done|].
  rewrite IH. apply Permutation_swap.
Qed.

Lemma sort_rows_perm rows : sort_rows rows ≡ₚ rows.
Proof.
  induction rows as [|r rows IH]; [done|]. cbn.
  by rewrite insert_row_perm, IH.
Qed.

Lemma insert_row_sorted r rows :
  StronglySorted by_date rows → StronglySorted by_date (insert_row r rows).
Proof.
  induction 1 as [|x rows Hsorted IH Hall]; cbn.
  { repeat constructor. }
  destruct (Z.leb_spec (date r) (date x)) as [Hle|Hlt].
  - constructor; [by constructor|].
    constructor; [done|].
    eapply Forall_impl; [exact Hall|]. unfold by_date. intros y Hy. lia.
  - constructor; [done|].
    rewrite insert_row_perm. constructor; [unfold by_date; lia|done].
Qed.

Lemma sort_rows_sorted rows : StronglySorted by_date (sort_rows rows).
Proof.
  induction rows as [|r rows IH]; [constructor|].
  cbn. by apply insert_row_sorted.
Qed.

(** The sort is stable: the rows of one date keep their order. *)
Lemma insert_row_stable r rows (d : Z) :
  filter (λ x, date x = d) (insert_row r rows)
  = filter (λ x, date x = d) (r :: rows).
Proof.
  induction rows as [|x rows IH]; [done|]. cbn [insert_row].
  destruct (Z.leb_spec (date r) (date x)) as [Hle|Hlt]; [done|].
  rewrite filter_cons, IH, !(filter_cons _ r), (filter_cons _ x).
  repeat case_decide; try done. lia.
Qed.

Lemma sort_rows_stable rows (d : Z) :
  filter (λ x, date x = d) (sort_rows rows) = filter (λ x, date x = d) rows.
Proof.
  induction rows as [|r rows IH]; [done|]. cbn [sort_rows foldr].
  rewrite insert_row_stable, !filter_cons. fold (sort_rows rows).
  by rewrite IH.
Qed.

Lemma NoDup_fmap_date_inj rows r r' :
  NoDup (date <$> rows) → r ∈ rows → r' ∈ rows → date r = date r' → r = r'.
Proof.
  induction rows as [|x rows IH]; intros Hnd Hr Hr' Heq; [by inversion Hr|].
  cbn in Hnd. apply NoDup_cons in Hnd as [Hx Hnd].
  apply elem_of_cons in Hr as [->|Hr], Hr' as [->|Hr']; [done|..].
  - destruct Hx. rewrite Heq. apply list_elem_of_fmap. by exists r'.
  - destruct Hx. rewrite <- Heq. apply list_elem_of_fmap. by exists r.
  - by apply IH.
Qed.

(** With distinct dates the sorted list is the same for every order of
    the rows. *)
Lemma sort_rows_permutation rows rows' :
  rows ≡ₚ rows' → NoDup (date <$> rows) → sort_rows rows = sort_rows rows'.
Proof.
  intros Hperm Hnd.
  apply (StronglySorted_unique_strong by_date);
    [|apply sort_rows_sorted..|by rewrite !sort_rows_perm].
  intros x1 x2 Hx1 Hx2 H12 H21. rewrite sort_rows_perm in Hx1, Hx2.
  rewrite <- Hperm in Hx2.
  apply (NoDup_fmap_date_inj rows); [done..|]. unfold by_date in *. lia.
Qed.

Lemma sort_rows_dates_lt rows :
  NoDup (date <$> rows) → StronglySorted Z.lt (date <$> sort_rows rows).
Proof.
  intros Hnd. rewrite <- (sort_rows_perm rows) in Hnd.
  induction (sort_rows_sorted rows) as [|x l Hsorted IH Hall]; cbn.
  { constructor. }
  cbn in Hnd. apply NoDup_cons in Hnd as [Hx Hnd].
  constructor; [by apply IH|].
  apply Forall_fmap, Forall_forall. intros y Hy. cbn.
  pose proof (proj1 (Forall_forall _ _) Hall y Hy) as Hle. unfold by_date in Hle.
  destruct (decide (date x = date y)) as [Heq|Hne]; [|lia].
  destruct Hx. rewrite Heq. apply list_elem_of_fmap. by exists y.
Qed.

Lemma divisors_nonzero_no_zero_divisor rows (i : nat) :
  Forall divisors_nonzero rows → ¬ zero_divisor rows i.
Proof.
  intros Hall (r & Hi & Hz).
  pose proof (proj1 (Forall_lookup _ _) Hall) as Hlookup.
  destruct (Hlookup i r Hi) as (Hl & Hil & Ho & _).
  destruct Hz as [?|[?|[?|(j & p & -> & Hj & Hp)]]]; [done..|].
  destruct (Hlookup j p Hj) as (_ & _ & _ & Hc & Hic).
  by destruct Hp.
Qed.

End sort_rows.

Section main.
Implicit Types (r : row) (rows : list row).

Lemma fmap_date_enriched rows (prev : option row) :
  date <$> enriched prev rows = date <$> rows.
Proof.
  revert prev. induction rows as [|r rows IH]; intros prev; [done|].
  cbn. by rewrite IH.
Qed.

(** Without a zero divisor in the sorted rows the three stages run to
    the end. *)
Lemma main_returns rows :
  (∀ i, ¬ zero_divisor (sort_rows rows) i) →
  ∃ flags,
    flag_unusual (enriched None (sort_rows rows)) = Ok flags
    ∧ length flags = length rows
    ∧ main rows = Ok (trigger_dates (date <$> sort_rows rows) flags).
Proof.
  intros Hno. apply compute_metrics_returns_iff in Hno.
  pose proof (compute_metrics_from_enriched (sort_rows rows) None Hno) as Hstate.
  destruct (flag_unusual_from (enriched None (sort_rows rows)) []
              (enriched_derived _ _)) as (flags & Hflags & Hlen & _).
  rewrite length_enriched, (Permutation_length (sort_rows_perm rows)) in Hlen.
  exists flags. split_and!; [done..|].
  unfold main. rewrite Hno. cbn [mbind result_bind].
  unfold compute_metrics. cbn [fmap option_fmap option_map] in Hstate.
  rewrite Hstate. unfold flag_unusual at 1. rewrite Hflags.
  cbn [mbind result_bind app]. rewrite fmap_date_enriched.
  apply check_disposition_trigger_dates.
  rewrite length_fmap, (Permutation_length (sort_rows_perm rows)). lia.
Qed.

Lemma main_raises rows (i : nat) :
  zero_divisor (sort_rows rows) i → main rows = Raise ZeroDivisionError.
Proof.
  intros Hz. apply zero_divisor_before in Hz as (r & Hi & Hz).
  destruct (compute_metrics_from_zero_divisor (sort_rows rows) None i r Hi Hz)
    as [Hraise _].
  unfold main, compute_metrics. cbn in Hraise. by rewrite Hraise.
Qed.

End main.

(** X14: the stages of [main] fit: it either raises
    [ZeroDivisionError], exactly when a divisor is zero in the rows
    sorted by date, or prints the dates of the days that a rule holds
    of. Neither the [KeyError] of [flag_unusual] nor the [IndexError]
    of [check_disposition] can occur in it. *)
Theorem main_outcome (rows : list row) :
  ((∀ i, ¬ zero_divisor (sort_rows rows) i)
   ∧ ∃ flags,
       flag_unusual (enriched None (sort_rows rows)) = Ok flags
       ∧ length flags = length rows
       ∧ main rows = Ok (trigger_dates (date <$> sort_rows rows) flags))
  ∨ ((∃ i, zero_divisor (sort_rows rows) i)
     ∧ main rows = Raise ZeroDivisionError).
Proof.
  destruct (compute_metrics (sort_rows rows)).1 as [[]|e] eqn:Hout.
  - left. pose proof (proj1 (compute_metrics_returns_iff _) Hout) as Hno.
    split; [done|]. by apply main_returns.
  - right.
    destruct (compute_metrics_from_raise (sort_rows rows) None e Hout)
      as (-> & i & r & Hi & Hz).
    assert (zero_divisor (sort_rows rows) i) as Hzero
      by (apply zero_divisor_before; by exists r).
    split; [by exists i|]. by eapply main_raises.
Qed.

(** X15: on rows with distinct dates and no zero among their divisors,
    in whatever order, [main] prints dates in strictly increasing
    order, each of them the date of a row. *)
Theorem main_ascending (rows : list row) :
  Forall divisors_nonzero rows → NoDup (date <$> rows) →
  ∃ out,
    main rows = Ok out
    ∧ StronglySorted Z.lt out
    ∧ ∀ d, d ∈ out → d ∈ date <$> rows.
Proof.
  intros Hdiv Hnd.
  destruct (main_returns rows) as (flags & _ & _ & Hmain).
  { intros i. apply divisors_nonzero_no_zero_divisor.
    by rewrite sort_rows_perm. }
  eexists. split; [exact Hmain|].
  pose proof (trigger_dates_sublist (date <$> sort_rows rows) flags) as Hsub.
  split.
  - eapply StronglySorted_sublist; [exact Hsub|].
    by apply sort_rows_dates_lt.
  - intros d Hd. apply (sublist_subseteq _ _ Hsub) in Hd.
    by rewrite (sort_rows_perm rows) in Hd.
Qed.

Lemma main_ascending_witness :
  ∃ out,
    main [negative_low_row; ordinary_row] = Ok out
    ∧ StronglySorted Z.lt out
    ∧ ∀ d, d ∈ out → d ∈ date <$> [negative_low_row; ordinary_row].
Proof.
  apply main_ascending.
  - repeat constructor; vm_compute; discriminate.
  - repeat constructor; vm_compute; intros Hin.
    + apply elem_of_cons in Hin as [|Hin]; [done|by inversion Hin].
    + by inversion Hin.
Defined.

(** X16: with distinct dates, the order of the rows in the file does
    not matter: [main] has the same outcome on every permutation of
    the rows. *)
Theorem main_order_independent (rows rows' : list row) :
  rows ≡ₚ rows' → NoDup (date <$> rows) → main rows = main rows'.
Proof.
  intros Hperm Hnd. unfold main.
  by rewrite (sort_rows_permutation rows rows' Hperm Hnd).
Qed.

Lemma main_order_independent_witness :
  main [negative_low_row; ordinary_row] = main [ordinary_row; negative_low_row].
Proof.
  apply main_order_independent.
  - apply Permutation_swap.
  - repeat constructor; vm_compute; intros Hin.
    + apply elem_of_cons in Hin as [|Hin]; [done|by inversion Hin].
    + by inversion Hin.
Defined.

(** ** [fetch_limit_up]: the result and the other failures *)

Lemma collect_list (row : json) (acc : list stock) :
  is_list row →
  collect row acc = Ok (acc ++ option_list (stock_of row)).
Proof.
  destruct row as [| | | | |items|]; try done. intros _.
  unfold collect. cbn [len mbind result_bind].
  destruct items as [|no [|name items]]; cbn [length stock_of option_list].
  - by rewrite app_nil_r.
  - by rewrite app_nil_r.
  - destruct (Z.leb_spec 2 (Z.of_nat (S (S (length items))))) as [_|?]; [|lia].
    cbn [item].
    change 0 with (Z.of_nat 0). change 1 with (Z.of_nat 1).
    rewrite (getitem_lookup _ 0 no), (getitem_lookup _ 1 name) by done.
    done.
Qed.

Lemma collect_lists (rows : list json) (acc : list stock) :
  Forall is_list rows →
  for_in rows collect acc = Ok (acc ++ omap stock_of rows).
Proof.
  intros Hall. revert acc.
  induction Hall as [|row rows Hrow _ IH]; intros acc.
  { cbn. by rewrite app_nil_r. }
  cbn [for_in omap list_omap]. rewrite (collect_list _ _ Hrow).
  cbn [mbind result_bind]. rewrite IH, <- (assoc_L (++)).
  by destruct (stock_of row).
Qed.

(** X17: on a payload whose [stat] is "OK" and whose [data] is a list
    of lists, or is missing, [fetch_limit_up] returns the first two
    items of every row that has two items at least, in the order of
    the rows; the shorter rows are left out without an error. *)
Theorem fetch_limit_up_result (today : str) (urlopen : str → response)
    (json_loads : str → result json) (date : option str)
    (content : str) (items : list (str * json)) (rows : list json) :
  urlopen (url (default today date)) = Body content →
  json_loads content = Ok (JObj items) →
  dict_get items (lit "stat") = Some (JStr (lit "OK")) →
  default (JArr []) (dict_get items (lit "data")) = JArr rows →
  Forall is_list rows →
  fetch_limit_up today urlopen json_loads date = Ok (omap stock_of rows)
  ∧ (length (omap stock_of rows) ≤ length rows)%nat.
Proof.
  intros Hurl Hjson Hstat Hdata Hrows. split.
  - unfold fetch_limit_up, fetch. rewrite Hurl.
    revert Hstat Hdata. generalize (lit "stat") (lit "OK") (lit "data").
    intros k ok data Hstat Hdata.
    cbn [mbind result_bind]. rewrite Hjson. cbn [mbind result_bind get].
    rewrite Hstat. cbn [differs]. rewrite bool_decide_eq_true_2 by done.
    cbn [negb mbind result_bind]. rewrite Hdata. cbn [iter mbind result_bind].
    by rewrite collect_lists.
  - clear. induction rows as [|row rows IH]; cbn; [lia|].
    destruct (stock_of row); cbn; lia.
Qed.

Lemma fetch_limit_up_result_witness :
  fetch_limit_up (lit "20240102") (λ _, Body (lit "{}"))
    (λ _, Ok (JObj [(lit "stat", JStr (lit "OK"));
                    (lit "data",
                     JArr [JArr [JStr (lit "2330"); JStr (lit "TSMC"); JInt 7];
                           JArr [JStr (lit "2317")]])]))
    None
  = Ok [Stock (JStr (lit "2330")) (JStr (lit "TSMC"))].
Proof.
  refine (proj1 (fetch_limit_up_result (lit "20240102") (λ _, Body (lit "{}"))
    (λ _, Ok (JObj [(lit "stat", JStr (lit "OK"));
                    (lit "data",
                     JArr [JArr [JStr (lit "2330"); JStr (lit "TSMC"); JInt 7];
                           JArr [JStr (lit "2317")]])]))
    None (lit "{}") _
    [JArr [JStr (lit "2330"); JStr (lit "TSMC"); JInt 7];
     JArr [JStr (lit "2317")]] _ _ _ _ _));
    try reflexivity.
  repeat constructor.
Defined.

(** X18: the failures that [fetch_limit_up] does not wrap: an
    exception of the request that is not a [URLError] and an exception
    of [json.loads] go through unchanged, a payload that is not a JSON
    object raises [AttributeError], and a [data] entry that is null, a
    boolean or a number raises [TypeError]. *)
Theorem fetch_limit_up_other_failures (today : str) (urlopen : str → response)
    (json_loads : str → result json) (date : option str) :
  (∀ e, urlopen (url (default today date)) = Failed e →
        fetch_limit_up today urlopen json_loads date = Raise e)
  ∧ (∀ content e,
       urlopen (url (default today date)) = Body content →
       json_loads content = Raise e →
       fetch_limit_up today urlopen json_loads date = Raise e)
  ∧ (∀ content data,
       urlopen (url (default today date)) = Body content →
       json_loads content = Ok data →
       (∀ items, data ≠ JObj items) →
       fetch_limit_up today urlopen json_loads date = Raise AttributeError)
  ∧ (∀ content items v,
       urlopen (url (default today date)) = Body content →
       json_loads content = Ok (JObj items) →
       dict_get items (lit "stat") = Some (JStr (lit "OK")) →
       dict_get items (lit "data") = Some v →
       match v with
       | JNull | JBool _ | JInt _ | JFloat _ => True
       | _ => False
       end →
       fetch_limit_up today urlopen json_loads date = Raise TypeError).
Proof.
  unfold fetch_limit_up, fetch. split_and!.
  - by intros e ->.
  - intros content e -> Hjson. cbn. by rewrite Hjson.
  - intros content data -> Hjson Hdata. cbn. rewrite Hjson. cbn.
    destruct data; try done. by destruct (Hdata items).
  - intros content items v -> Hjson. generalize (lit "stat") (lit "OK") (lit "data").
    intros k ok data Hstat Hdata Hv.
    cbn [mbind result_bind]. rewrite Hjson. cbn [mbind result_bind get].
    rewrite Hstat. cbn [differs]. rewrite bool_decide_eq_true_2 by done.
    cbn [negb mbind result_bind]. rewrite Hdata.
    by destruct v.
Qed.

Lemma fetch_limit_up_other_failures_witness :
  fetch_limit_up (lit "20240102") (λ _, Failed UnicodeDecodeError)
    (λ _, Ok JNull) None = Raise UnicodeDecodeError
  ∧ fetch_limit_up (lit "20240102") (λ _, Body (lit "<html>"))
      (λ _, Raise JSONDecodeError) None = Raise JSONDecodeError
  ∧ fetch_limit_up (lit "20240102") (λ _, Body (lit "[]"))
      (λ _, Ok (JArr [])) None = Raise AttributeError
  ∧ fetch_limit_up (lit "20240102") (λ _, Body (lit "{}"))
      (λ _, Ok (JObj [(lit "stat", JStr (lit "OK")); (lit "data", JNull)]))
      None = Raise TypeError.
Proof.
  split_and!.
  - by apply (proj1 (fetch_limit_up_other_failures _ _ _ _)).
  - by eapply (proj1 (proj2 (fetch_limit_up_other_failures _ _ _ _))).
  - by eapply (proj1 (proj2 (proj2 (fetch_limit_up_other_failures _ _ _ _)))).
  - by eapply (proj2 (proj2 (proj2 (fetch_limit_up_other_failures _ _ _ _)))).
Defined.
